(** * parex: parallel execution of shell commands, joined by one wait loop

    A shallow embedding of [parex.py] (class [TaskManager], methods
    [execute] and [wait]) and the verification of its specification.

    The Python object is a record of five dictionaries plus the working
    directory.  The operating system (process creation, the readiness poll,
    reads from pipes) is an environment whose replies are supplied to the
    model as arguments; everything the code asks of the environment is
    recorded, in program order, in a log of effects.  Python exceptions leave
    the mutated object behind, so a raised exception carries on with the
    state reached when it was raised. *)

From Stdlib Require Import ZArith String.
From stdpp Require Import gmap strings list fin_maps sorting.

Local Open Scope Z_scope.

(** ** Constants of the module (lines 40-57 of parex.py) *)

Definition _EPOLLIN : Z := 0x001.
Definition _EPOLLPRI : Z := 0x002.
Definition _EPOLLOUT : Z := 0x004.
Definition _EPOLLERR : Z := 0x008.
Definition _EPOLLHUP : Z := 0x010.
Definition _EPOLLRDHUP : Z := 0x2000.
Definition _EPOLLONESHOT : Z := Z.shiftl 1 30.
Definition _EPOLLET : Z := Z.shiftl 1 31.

Definition NONE : Z := 0.
Definition READ : Z := _EPOLLIN.
Definition WRITE : Z := _EPOLLOUT.
Definition ERROR : Z := Z.lor (Z.lor _EPOLLERR _EPOLLHUP) _EPOLLRDHUP.

Definition FDIN : Z := READ.
Definition FDOUT : Z := WRITE.
Definition FDERR : Z := ERROR.

(** ** Data model *)

(** A Python file object wrapping a pipe end; the model keeps its
    descriptor, which is all the code asks of it ([fileno()], [close()]). *)
Record pyfile := PyFile { fileno : Z }.

(** The instance attributes set by [__init__].  Tuples are sequences, and
    [data] is keyed by whatever [self.fds.get(fd, None)] returned, so its
    keys are optional process identifiers ([None] is a legal key). *)
Record TaskManager := mkTaskManager {
  cwd : string;
  processes : gmap Z (list Z);
  processgbprot : gmap Z (list pyfile);
  fds : gmap Z Z;
  fdtype : gmap Z Z;
  data : gmap (option Z) string
}.

Definition __init__ (cwd : string) : TaskManager :=
  mkTaskManager cwd ∅ ∅ ∅ ∅ ∅.

Definition set_processes (f : gmap Z (list Z) → gmap Z (list Z)) (s : TaskManager) :=
  mkTaskManager (cwd s) (f (processes s)) (processgbprot s) (fds s) (fdtype s) (data s).
Definition set_processgbprot (f : gmap Z (list pyfile) → gmap Z (list pyfile)) (s : TaskManager) :=
  mkTaskManager (cwd s) (processes s) (f (processgbprot s)) (fds s) (fdtype s) (data s).
Definition set_fds (f : gmap Z Z → gmap Z Z) (s : TaskManager) :=
  mkTaskManager (cwd s) (processes s) (processgbprot s) (f (fds s)) (fdtype s) (data s).
Definition set_fdtype (f : gmap Z Z → gmap Z Z) (s : TaskManager) :=
  mkTaskManager (cwd s) (processes s) (processgbprot s) (fds s) (f (fdtype s)) (data s).
Definition set_data (f : gmap (option Z) string → gmap (option Z) string) (s : TaskManager) :=
  mkTaskManager (cwd s) (processes s) (processgbprot s) (fds s) (fdtype s) (f (data s)).

(** ** The environment *)

(** What the program asks of the outside world, in program order. *)
Inductive effect :=
  | Print (line : string)                 (* print 'Executing', fullcmd *)
  | PopenShell (fullcmd : string)         (* Popen(fullcmd, shell=True, three pipes) *)
  | PollCreate                            (* iop = _poll() *)
  | PollRegister (fd mask : Z)            (* iop.register(fd, READ) *)
  | PollWait                              (* iop.poll(0.5) *)
  | OsRead (fd size : Z)                  (* os.read(fd, 4096) *)
  | FileClose (fd : Z).                   (* <file object of fd>.close() *)

Inductive exn := KeyError | ValueError | IndexError | OSError | IOError.

(** Reply of process creation: the new process with its three pipe ends, or
    a failure to spawn. *)
Inductive spawn_reply :=
  | Spawned (pid stdin stdout stderr : Z)
  | SpawnFails.

(** Reply of [os.read(fd, 4096)] if it is called on the endpoint. *)
Inductive read_reply :=
  | ReadData (d : string)
  | ReadFails.

(** One [(fd, state)] pair returned by the poll, together with what a read
    of that endpoint would deliver at that moment. *)
Record event := Event { ev_fd : Z; ev_state : Z; ev_read : read_reply }.

(** Reply of one round of the readiness mechanism (create, register, poll):
    the active list, or a failure of the mechanism. *)
Inductive poll_reply :=
  | Active (evs : list event)
  | PollFails.

(** ** The monad: state, effect log, exceptions *)

Record world := World { self : TaskManager; log : list effect }.

Inductive res (A : Type) :=
  | Val (a : A)
  | Raise (e : exn).
Arguments Val {A} a.
Arguments Raise {A} e.

Definition M (A : Type) : Type := world → res A * world.

Definition ret {A} (a : A) : M A := λ w, (Val a, w).
Definition bind {A B} (m : M A) (k : A → M B) : M B :=
  λ w, match m w with
       | (Val a, w') => k a w'
       | (Raise e, w') => (Raise e, w')
       end.
Definition raise {A} (e : exn) : M A := λ w, (Raise e, w).
Definition get_self : M TaskManager := λ w, (Val (self w), w).
Definition modify (f : TaskManager → TaskManager) : M unit :=
  λ w, (Val tt, World (f (self w)) (log w)).
Definition emit (e : effect) : M unit :=
  λ w, (Val tt, World (self w) (log w ++ [e])).

Notation "x <- m ;; k" := (bind m (λ x, k))
  (at level 100, m at next level, right associativity).
Notation "m ;;; k" := (bind m (λ _, k))
  (at level 100, right associativity).

(** Python's [for x in xs: body], abandoned at the first exception. *)
Fixpoint for_each {A} (xs : list A) (body : A → M unit) : M unit :=
  match xs with
  | [] => ret tt
  | x :: xs' => body x ;;; for_each xs' body
  end.

(** Subscription [m[k]] of a dictionary: [KeyError] on a missing key.  The
    key may be [None], which is never a key of a dictionary keyed by
    integers. *)
Definition getitem {V} (m : gmap Z V) (k : option Z) : M V :=
  match k ≫= (m !!.) with
  | Some v => ret v
  | None => raise KeyError
  end.

(** Subscription [t[i]] of a tuple: [IndexError] out of range. *)
Definition tuple_getitem {V} (t : list V) (i : nat) : M V :=
  match t !! i with
  | Some v => ret v
  | None => raise IndexError
  end.

(** [t.index(x)]: position of the first occurrence, [ValueError] if none. *)
Fixpoint index_of (t : list Z) (x : Z) : option nat :=
  match t with
  | [] => None
  | y :: t' => if bool_decide (y = x) then Some 0%nat else S <$> index_of t' x
  end.
Definition tuple_index (t : list Z) (x : Z) : M nat :=
  match index_of t x with
  | Some i => ret i
  | None => raise ValueError
  end.

(** Truth value of [d.get(k, None)] for a dictionary of integers: false for
    a missing key and for the integer zero. *)
Definition truthy (v : option Z) : bool :=
  match v with
  | Some n => negb (n =? 0)
  | None => false
  end.

(** ** [TaskManager.execute] (lines 74-91) *)

Definition Popen (fullcmd : string) (os_spawn : string → spawn_reply)
  : M (Z * pyfile * pyfile * pyfile) :=
  emit (PopenShell fullcmd) ;;;
  match os_spawn fullcmd with
  | Spawned pid i o e => ret (pid, PyFile i, PyFile o, PyFile e)
  | SpawnFails => raise OSError
  end.

Definition execute (cmd : string) (os_spawn : string → spawn_reply) : M Z :=
  s <- get_self ;;
  let fullcmd := "cd " +:+ cwd s +:+ "; " +:+ cmd in
  emit (Print ("Executing " +:+ fullcmd)) ;;;
  p <- Popen fullcmd os_spawn ;;
  let '(pid, stdin, stdout, stderr) := p in
  modify (set_processes <[pid := [fileno stdin; fileno stdout; fileno stderr]]>) ;;;
  modify (set_processgbprot <[pid := [stdin; stdout; stderr]]>) ;;;
  modify (set_fds <[fileno stdin := pid]>) ;;;
  modify (set_fdtype <[fileno stdin := FDIN]>) ;;;
  modify (set_fds <[fileno stdout := pid]>) ;;;
  modify (set_fdtype <[fileno stdout := FDOUT]>) ;;;
  modify (set_fds <[fileno stderr := pid]>) ;;;
  modify (set_fdtype <[fileno stderr := FDERR]>) ;;;
  ret pid.

(** ** [TaskManager.wait] (lines 93-117) *)

(** [x in t] for a tuple of integers. *)
Definition in_tuple (x : Z) (t : list Z) : bool := bool_decide (x ∈ t).

(** [[x for x in xs if cond(x)]] where the condition may raise. *)
Fixpoint comprehension {A} (xs : list A) (cond : A → M bool) : M (list A) :=
  match xs with
  | [] => ret []
  | x :: xs' =>
      b <- cond x ;;
      rest <- comprehension xs' cond ;;
      ret (if b then x :: rest else rest)
  end.

(** [for x in d]: the keys of a dictionary in iteration order.  CPython 2
    walks the slots of the hash table, and an integer key hashes to itself, so
    descriptors below the size of the table (8 slots at first, growing before
    it is two thirds full) come out in ascending order: 4, 5, 7 for the pipes
    of a first child.  The model iterates in ascending order. *)
Definition dict_keys {V} (d : gmap Z V) : list Z :=
  merge_sort Z.le (map fst (map_to_list d)).

(** Line 96: [[x for x in self.fds if self.fdtype[x] in (FDOUT,FDERR)]]. *)
Definition watch_list : M (list Z) :=
  s <- get_self ;;
  comprehension (dict_keys (fds s))
    (λ x, t <- getitem (fdtype s) (Some x) ;; ret (in_tuple t [FDOUT; FDERR])).

(** Lines 95-99: a fresh poll object, the registrations, the poll itself. *)
Definition poll_round (reply : poll_reply) : M (list event) :=
  emit PollCreate ;;;
  watched <- watch_list ;;
  for_each watched (λ fd, emit (PollRegister fd READ)) ;;;
  emit PollWait ;;;
  match reply with
  | Active evs => ret evs
  | PollFails => raise IOError
  end.

Definition os_read (ev : event) (size : Z) : M string :=
  emit (OsRead (ev_fd ev) size) ;;;
  match ev_read ev with
  | ReadData d => ret d
  | ReadFails => raise OSError
  end.

(** [del d[k]] on one of the dictionaries of the object. *)
Definition delitem {V} (proj : TaskManager → gmap Z V)
    (upd : (gmap Z V → gmap Z V) → TaskManager → TaskManager)
    (k : option Z) : M unit :=
  s <- get_self ;;
  match k with
  | Some k' =>
      match proj s !! k' with
      | Some _ => modify (upd (delete k'))
      | None => raise KeyError
      end
  | None => raise KeyError
  end.

(** Lines 104-107: the data of the event, by its state. *)
Definition drain (ev : event) (pid : option Z) : M string :=
  if ev_state ev =? READ then os_read ev 4096
  else if in_tuple (ev_state ev) [_EPOLLHUP; _EPOLLRDHUP] then
    s <- get_self ;;
    files <- getitem (processgbprot s) pid ;;
    t <- getitem (processes s) pid ;;
    i <- tuple_index t (ev_fd ev) ;;
    f <- tuple_getitem files i ;;
    emit (FileClose (fileno f)) ;;;
    ret ""
  else ret "".

(** Lines 110-114: the endpoint leaves [fds]; the process is dropped when
    exactly one endpoint of its tuple still has a true entry in [fds]. *)
Definition end_of_stream (fd : Z) (pid : option Z) : M unit :=
  delitem fds set_fds (Some fd) ;;;
  s <- get_self ;;
  t <- getitem (processes s) pid ;;
  let remaining := filter (λ x, truthy (fds s !! x)) t in
  if (length remaining =? 1)%nat then
    delitem processes set_processes pid ;;;
    delitem processgbprot set_processgbprot pid
  else ret tt.

(** Lines 116-117: [self.data.setdefault(pid, StringIO()).write(d)]. *)
Definition setdefault (pid : option Z) (m : gmap (option Z) string) :=
  match m !! pid with
  | Some _ => m
  | None => <[pid := ""]> m
  end.
Definition append_output (pid : option Z) (d : string) : M unit :=
  modify (set_data (setdefault pid)) ;;;
  modify (set_data (alter (λ buf, buf +:+ d) pid)).

(** Lines 100-117: the body of [for fd, state in active]. *)
Definition handle_event (ev : event) : M unit :=
  s <- get_self ;;
  let pid := fds s !! ev_fd ev in
  d <- drain ev pid ;;
  if (String.length d =? 0)%nat then end_of_stream (ev_fd ev) pid
  else append_output pid d.

(** The loop.  Each iteration consumes one reply of the readiness
    mechanism; when the replies run out with processes still tracked the
    loop is still polling. *)
Inductive status := Returned | Polling.

Fixpoint wait (replies : list poll_reply) : M status :=
  s <- get_self ;;
  if bool_decide (processes s = ∅) then ret Returned
  else match replies with
       | [] => ret Polling
       | r :: replies' =>
           active <- poll_round r ;;
           for_each active handle_event ;;;
           wait replies'
       end.

(** ** Well-formed managers

    The states [execute] builds from real spawns and [wait] maintains: a
    tracked process has three distinct endpoints, its input endpoint is
    registered under its own identifier with role [FDIN], at least one of
    its other two endpoints is still registered, those two carry the roles
    [FDOUT] and [FDERR], registered identifiers are
    those of child processes (never zero), and a registered endpoint with
    an output or error role belongs to a tracked process. *)

Definition polled_role (ty : Z) : Prop := in_tuple ty [FDOUT; FDERR] = true.

Record wf (s : TaskManager) : Prop := {
  wf_triple : ∀ p t, processes s !! p = Some t →
    ∃ i o e, t = [i; o; e] ∧ i ≠ o ∧ i ≠ e ∧ o ≠ e ∧
      fds s !! i = Some p ∧ fdtype s !! i = Some FDIN ∧
      (is_Some (fds s !! o) ∨ is_Some (fds s !! e)) ∧
      fdtype s !! o = Some FDOUT ∧ fdtype s !! e = Some FDERR;
  wf_own : ∀ p t x q, processes s !! p = Some t → x ∈ t →
    fds s !! x = Some q → q = p;
  wf_files : ∀ p, processgbprot s !! p = map PyFile <$> processes s !! p;
  wf_pid : ∀ f p, fds s !! f = Some p → p ≠ 0;
  wf_owner : ∀ f p ty, fds s !! f = Some p → fdtype s !! f = Some ty →
    polled_role ty → ∃ t, processes s !! p = Some t ∧ f ∈ t;
  wf_typed : ∀ f, is_Some (fds s !! f) → is_Some (fdtype s !! f)
}.

(** An endpoint is watched when line 96 selects it. *)
Definition watched (s : TaskManager) (f : Z) : Prop :=
  is_Some (fds s !! f) ∧ ∃ ty, fdtype s !! f = Some ty ∧ polled_role ty.

(** The poll reports endpoints registered in this round, each once. *)
Definition events_ok (s : TaskManager) (evs : list event) : Prop :=
  NoDup (map ev_fd evs) ∧ Forall (λ ev, watched s (ev_fd ev)) evs.

(** The state an end-of-stream on [f], owned by [p], leads to. *)
Definition eos_state (f p : Z) (s : TaskManager) : TaskManager :=
  let s1 := set_fds (delete f) s in
  match processes s1 !! p with
  | Some t =>
      if (length (filter (λ x, truthy (fds s1 !! x)) t) =? 1)%nat
      then set_processgbprot (delete p) (set_processes (delete p) s1)
      else s1
  | None => s1
  end.

(** The state after [d] was appended to the buffer of [p]. *)
Definition out_state (p : option Z) (d : string) (s : TaskManager) : TaskManager :=
  set_data (alter (λ buf, buf +:+ d) p) (set_data (setdefault p) s).

Ltac munfold :=
  unfold handle_event, drain, end_of_stream, append_output, os_read, delitem,
    getitem, tuple_index, tuple_getitem, bind, ret, raise, get_self, modify, emit.

(** ** Vocabulary of the specification *)

(** The possible outcomes of the loop body on one event: the result, the
    manager it leaves and the effects it adds. *)
Inductive handled (ev : event) (s : TaskManager)
  : res unit → TaskManager → list effect → Prop :=
  | handled_read_fails :
      ev_state ev = READ → ev_read ev = ReadFails →
      handled ev s (Raise OSError) s [OsRead (ev_fd ev) 4096]
  | handled_data d :
      ev_state ev = READ → ev_read ev = ReadData d → d ≠ "" →
      handled ev s (Val tt) (out_state (fds s !! ev_fd ev) d s)
        [OsRead (ev_fd ev) 4096]
  | handled_eof p :
      ev_state ev = READ → ev_read ev = ReadData "" →
      fds s !! ev_fd ev = Some p →
      handled ev s (Val tt) (eos_state (ev_fd ev) p s) [OsRead (ev_fd ev) 4096]
  | handled_hangup p :
      ev_state ev ≠ READ →
      in_tuple (ev_state ev) [_EPOLLHUP; _EPOLLRDHUP] = true →
      fds s !! ev_fd ev = Some p →
      handled ev s (Val tt) (eos_state (ev_fd ev) p s) [FileClose (ev_fd ev)]
  | handled_other p :
      ev_state ev ≠ READ →
      in_tuple (ev_state ev) [_EPOLLHUP; _EPOLLRDHUP] = false →
      fds s !! ev_fd ev = Some p →
      handled ev s (Val tt) (eos_state (ev_fd ev) p s) [].

(** Facts every outcome shares. *)
Record step_keeps (f : Z) (s s' : TaskManager) : Prop := {
  keeps_cwd : cwd s' = cwd s;
  keeps_fdtype : fdtype s' = fdtype s;
  keeps_fds_other : ∀ x, x ≠ f → fds s' !! x = fds s !! x;
  keeps_fds_sub : fds s' ⊆ fds s;
  keeps_processes_sub : processes s' ⊆ processes s
}.

(** An endpoint whose role is one the loop polls. *)
Definition polled_fd (s : TaskManager) (f : Z) : Prop :=
  ∃ ty, fdtype s !! f = Some ty ∧ polled_role ty.

(** How the loop may change the manager: roles and directory stay, the
    registry and the tracked set only shrink, and only endpoints with a
    polled role leave the registry. *)
Record evolves (s s' : TaskManager) : Prop := {
  evolves_cwd : cwd s' = cwd s;
  evolves_fdtype : fdtype s' = fdtype s;
  evolves_fds : fds s' ⊆ fds s;
  evolves_unpolled : ∀ x, ¬ polled_fd s x → fds s' !! x = fds s !! x;
  evolves_processes : processes s' ⊆ processes s
}.

(** The effects the loop performs all concern endpoints with a polled
    role, and registrations ask for readability only. *)
Definition effect_ok (s : TaskManager) (eff : effect) : Prop :=
  match eff with
  | PollCreate | PollWait => True
  | PollRegister f m => polled_fd s f ∧ m = READ
  | OsRead f n => polled_fd s f ∧ n = 4096
  | FileClose f => polled_fd s f
  | Print _ | PopenShell _ => False
  end.

(** The replies of the readiness mechanism respect its contract along the
    run: every batch reports endpoints registered in its round. *)
Fixpoint polls_ok (replies : list poll_reply) (s : TaskManager) : Prop :=
  processes s = ∅ ∨
  match replies with
  | [] => True
  | PollFails :: _ => True
  | Active evs :: rest =>
      events_ok s evs ∧
      ∀ l w', for_each evs handle_event (World s l) = (Val tt, w') →
              polls_ok rest (self w')
  end.

(** The list line 96 builds, as a pure function of the manager. *)
Definition has_polled_role (s : TaskManager) (x : Z) : bool :=
  match fdtype s !! x with
  | Some ty => in_tuple ty [FDOUT; FDERR]
  | None => false
  end.
Definition watch_set (s : TaskManager) : list Z :=
  filter (λ x, has_polled_role s x) (dict_keys (fds s)).

(** The effects of one round of registration and polling. *)
Definition round_effects (s : TaskManager) : list effect :=
  PollCreate :: map (λ fd, PollRegister fd READ) (watch_set s) ++ [PollWait].

(** How a run of the loop can end. *)
Definition wait_outcome (r : res status) (s' : TaskManager) : Prop :=
  r = Val Returned ∧ processes s' = ∅ ∨
  r = Val Polling ∧ processes s' ≠ ∅ ∨
  r = Raise OSError ∨ r = Raise IOError.

(** A run from a manager, with an empty effect log. *)
Definition run {A} (m : M A) (s : TaskManager) : res A * world := m (World s []).

(** The command line [execute] hands to the shell. *)
Definition fullcmd_of (s : TaskManager) (cmd : string) : string :=
  "cd " +:+ cwd s +:+ "; " +:+ cmd.

Definition execute_effects (s : TaskManager) (cmd : string) : list effect :=
  [Print ("Executing " +:+ fullcmd_of s cmd); PopenShell (fullcmd_of s cmd)].

(** The manager after a successful spawn was recorded (lines 79-89). *)
Definition spawned_state (pid i o e : Z) (s : TaskManager) : TaskManager :=
  set_fdtype <[e := FDERR]> (set_fds <[e := pid]>
  (set_fdtype <[o := FDOUT]> (set_fds <[o := pid]>
  (set_fdtype <[i := FDIN]> (set_fds <[i := pid]>
  (set_processgbprot <[pid := [PyFile i; PyFile o; PyFile e]]>
  (set_processes <[pid := [i; o; e]]> s))))))).

(** What the operating system guarantees of a new child: a non-zero
    identifier that is not tracked, and three distinct descriptors that no
    tracked process holds. *)
Definition fresh_spawn (s : TaskManager) (pid i o e : Z) : Prop :=
  pid ≠ 0 ∧ processes s !! pid = None ∧ NoDup [i; o; e] ∧
  ∀ p t x, processes s !! p = Some t → x ∈ t → x ∉ [i; o; e].

Ltac nodup_concrete :=
  repeat (apply NoDup_cons; split; [set_solver|]); apply NoDup_nil_2.


(** What a spawn reply must satisfy on a given manager. *)
Definition spawn_reply_ok (s : TaskManager) (reply : spawn_reply) : Prop :=
  match reply with
  | Spawned pid i o e => fresh_spawn s pid i o e
  | SpawnFails => True
  end.

(** ** Vocabulary of the further properties *)

(** What the loop can do to a manager, whatever the manager and whatever
    the environment replies: the directory and the roles stay, the three
    tables of endpoints and processes only lose entries, and every buffer
    only grows at its end. *)
Record frame (s s' : TaskManager) : Prop := {
  frame_cwd : cwd s' = cwd s;
  frame_fdtype : fdtype s' = fdtype s;
  frame_fds : fds s' ⊆ fds s;
  frame_processes : processes s' ⊆ processes s;
  frame_processgbprot : processgbprot s' ⊆ processgbprot s;
  frame_data : ∀ k b, data s !! k = Some b →
    ∃ b', data s' !! k = Some (b +:+ b')
}.

(** The bytes collected so far for a key of [data]: what [getvalue()]
    gives, or nothing when the buffer was never created. *)
Definition collected (s : TaskManager) (p : option Z) : string :=
  default "" (data s !! p).

(** The bytes a list of events would deliver to reads, in order. *)
Fixpoint payload (evs : list event) : string :=
  match evs with
  | [] => ""
  | ev :: evs' =>
      match ev_read ev with ReadData d => d | ReadFails => "" end
      +:+ payload evs'
  end.

(** A data-ready event with bytes to read, on an endpoint whose registry
    entry is [p]. *)
Definition delivers_data (s : TaskManager) (p : option Z) (ev : event) : Prop :=
  ev_state ev = READ ∧ (∃ d, ev_read ev = ReadData d ∧ d ≠ "") ∧
  fds s !! ev_fd ev = p.

(** An event line 109 treats as the end of the stream: a read of no bytes,
    or any state other than exactly [READ]. *)
Definition ends_stream (ev : event) : Prop :=
  ev_state ev = READ ∧ ev_read ev = ReadData "" ∨ ev_state ev ≠ READ.

(** The manager once both the output and the error endpoint of a process
    have ended: the two endpoints are out of the registry and the process is
    out of the tracked set and of the stream table. *)
Definition retired_state (p o e : Z) (s : TaskManager) : TaskManager :=
  set_processgbprot (delete p)
    (set_processes (delete p) (set_fds (λ m, delete e (delete o m)) s)).

(** Rounds that each report one endpoint as data-ready and deliver one
    chunk to its read, and the text of the chunks in that order. *)
Definition data_rounds (chunks : list (Z * string)) : list poll_reply :=
  map (λ c, Active [Event c.1 READ (ReadData c.2)]) chunks.
Fixpoint chunks_text (chunks : list (Z * string)) : string :=
  match chunks with
  | [] => ""
  | c :: chunks' => c.2 +:+ chunks_text chunks'
  end.

(** Every buffer of [s'] existed in [s] or belongs to a process tracked
    in [s]. *)
Definition keys_from (s s' : TaskManager) : Prop :=
  ∀ k, is_Some (data s' !! k) →
       is_Some (data s !! k) ∨ ∃ p, k = Some p ∧ is_Some (processes s !! p).

(** A data-ready event with bytes to read, on whatever endpoint. *)
Definition has_data (ev : event) : Prop :=
  ev_state ev = READ ∧ ∃ d, ev_read ev = ReadData d ∧ d ≠ "".

(** A round of the readiness mechanism that reports data-ready events
    only (possibly none at all, as after a timeout). *)
Definition data_only (reply : poll_reply) : Prop :=
  match reply with
  | Active evs => Forall has_data evs
  | PollFails => False
  end.

(** ** A concrete session

    One child with pid 100 and pipes 4 (input), 5 (output), 7 (error), as
    [execute] records it on a fresh manager. *)

Definition demo : TaskManager := spawned_state 100 4 5 7 (__init__ ".").

(** Two rounds: data on the output and a hang-up of the error endpoint,
    then the end of the output. *)
Definition demo_replies : list poll_reply :=
  [Active [Event 5 READ (ReadData "out"); Event 7 _EPOLLHUP (ReadData "")];
   Active [Event 5 READ (ReadData "")]].

(** A child that wrote to both channels and exited before the first poll:
    both pipe ends hold data and are hung up, which the readiness mechanism
    reports as the combined state [EPOLLIN | EPOLLHUP]. *)
Definition exited_before_poll : list poll_reply :=
  [Active [Event 5 (Z.lor _EPOLLIN _EPOLLHUP) (ReadData "out");
           Event 7 (Z.lor _EPOLLIN _EPOLLHUP) (ReadData "err")]].

(** The manager after the error endpoint, then the output endpoint, of the
    concrete child hung up: the child is retired. *)
Definition demo_retired : TaskManager :=
  self (snd (run (for_each [Event 7 _EPOLLHUP (ReadData "");
                            Event 5 _EPOLLHUP (ReadData "")] handle_event) demo)).

(** The concrete child after its error endpoint hung up. *)
Definition demo_err_closed : TaskManager := eos_state 7 100 demo.

(** The concrete session with a second child: pid 101, pipes 8, 9, 11. *)
Definition demo_two : TaskManager := spawned_state 101 8 9 11 demo.



(** ** Lemmas *)

Lemma end_of_stream_eq f p t fs s l :
  fds s !! f = Some p → processes s !! p = Some t →
  processgbprot s !! p = Some fs →
  end_of_stream f (Some p) (World s l) = (Val tt, World (eos_state f p s) l).
Proof.
  intros Hf Hp Hg. unfold eos_state. munfold. simpl. rewrite Hf. simpl.
  rewrite Hp. destruct (length _ =? 1)%nat; simpl; [|done].
  rewrite Hp. simpl. by rewrite Hg.
Qed.

Lemma index_of_elem t x : x ∈ t → ∃ j, index_of t x = Some j ∧ t !! j = Some x.
Proof.
  induction t as [|y t IH]; intros Hx; [by apply elem_of_nil in Hx|].
  simpl. case_bool_decide as Hy.
  - exists 0%nat. by subst.
  - apply elem_of_cons in Hx as [->|Hx]; [done|].
    destruct (IH Hx) as (j & -> & Hj). by exists (S j).
Qed.

Lemma handle_event_data ev d s l :
  ev_state ev = READ → ev_read ev = ReadData d → d ≠ "" →
  handle_event ev (World s l)
  = (Val tt, World (out_state (fds s !! ev_fd ev) d s) (l ++ [OsRead (ev_fd ev) 4096])).
Proof.
  intros Hst Hrd Hd. munfold. simpl. rewrite Hst, Hrd. simpl.
  destruct d; [done|]. reflexivity.
Qed.

Lemma handle_event_read_fails ev s l :
  ev_state ev = READ → ev_read ev = ReadFails →
  handle_event ev (World s l)
  = (Raise OSError, World s (l ++ [OsRead (ev_fd ev) 4096])).
Proof. intros Hst Hrd. munfold. simpl. by rewrite Hst, Hrd. Qed.

Lemma handle_event_eof ev p t fs s l :
  ev_state ev = READ → ev_read ev = ReadData "" →
  fds s !! ev_fd ev = Some p → processes s !! p = Some t →
  processgbprot s !! p = Some fs →
  handle_event ev (World s l)
  = (Val tt, World (eos_state (ev_fd ev) p s) (l ++ [OsRead (ev_fd ev) 4096])).
Proof.
  intros Hst Hrd Hf Hp Hg.
  pose proof (end_of_stream_eq (ev_fd ev) p t fs s
                (l ++ [OsRead (ev_fd ev) 4096]) Hf Hp Hg) as E.
  unfold handle_event, drain, os_read, bind, get_self, emit, ret in *.
  simpl in *. rewrite Hst, Hrd, Hf. simpl. exact E.
Qed.

Lemma handle_event_hangup ev p t s l :
  ev_state ev ≠ READ → in_tuple (ev_state ev) [_EPOLLHUP; _EPOLLRDHUP] = true →
  fds s !! ev_fd ev = Some p → processes s !! p = Some t →
  processgbprot s !! p = Some (map PyFile t) → ev_fd ev ∈ t →
  handle_event ev (World s l)
  = (Val tt, World (eos_state (ev_fd ev) p s) (l ++ [FileClose (ev_fd ev)])).
Proof.
  intros Hst Hin Hf Hp Hg Ht.
  pose proof (end_of_stream_eq (ev_fd ev) p t _ s
                (l ++ [FileClose (ev_fd ev)]) Hf Hp Hg) as E.
  destruct (index_of_elem _ _ Ht) as (j & Hj & Htj).
  apply Z.eqb_neq in Hst.
  unfold handle_event, drain, getitem, tuple_index, tuple_getitem,
    bind, get_self, emit, ret in *.
  simpl in *. rewrite Hst, Hin, Hf. simpl. rewrite Hg, Hp, Hj.
  rewrite list_lookup_fmap, Htj. simpl. exact E.
Qed.

Lemma handle_event_other ev p t fs s l :
  ev_state ev ≠ READ → in_tuple (ev_state ev) [_EPOLLHUP; _EPOLLRDHUP] = false →
  fds s !! ev_fd ev = Some p → processes s !! p = Some t →
  processgbprot s !! p = Some fs →
  handle_event ev (World s l) = (Val tt, World (eos_state (ev_fd ev) p s) l).
Proof.
  intros Hst Hin Hf Hp Hg.
  pose proof (end_of_stream_eq (ev_fd ev) p t fs s l Hf Hp Hg) as E.
  apply Z.eqb_neq in Hst.
  unfold handle_event, drain, bind, get_self, ret in *.
  simpl in *. rewrite Hst, Hin, Hf. simpl. exact E.
Qed.

(** *** The invariant is kept by the loop body *)

Lemma polled_role_not_FDIN : ¬ polled_role FDIN.
Proof. unfold polled_role. by vm_compute. Qed.

Lemma count3 (P : Z → bool) i o e :
  length (filter (λ x, P x) [i; o; e])
  = ((if P i then 1 else 0) + (if P o then 1 else 0) + (if P e then 1 else 0))%nat.
Proof.
  rewrite !filter_cons, filter_nil.
  destruct (P i), (P o), (P e); reflexivity.
Qed.

Lemma wf_out_state p d s : wf s → wf (out_state p d s).
Proof. intros [W1 W2 W3 W4 W5 W6]. by split. Qed.

(** A watched endpoint of a well-formed manager is the output or the error
    endpoint of the tracked process it is registered for. *)
Lemma watched_owner s f :
  wf s → watched s f →
  ∃ p i o e, fds s !! f = Some p ∧ processes s !! p = Some [i; o; e] ∧
    processgbprot s !! p = Some (map PyFile [i; o; e]) ∧
    i ≠ o ∧ i ≠ e ∧ o ≠ e ∧ f ≠ i ∧ (f = o ∨ f = e) ∧
    fds s !! i = Some p ∧ fdtype s !! i = Some FDIN.
Proof.
  intros W [[p Hp] (ty & Hty & Hrole)].
  destruct (wf_owner s W f p ty Hp Hty Hrole) as (t & Ht & Hft).
  destruct (wf_triple s W p t Ht) as (i & o & e & -> & Hio & Hie & Hoe & Hi & Hti & _).
  exists p, i, o, e. rewrite (wf_files s W), Ht.
  assert (f ≠ i) as Hfi.
  { intros ->. rewrite Hti in Hty. injection Hty as <-.
    by apply polled_role_not_FDIN. }
  repeat split; try done.
  set_solver.
Qed.

Section Deregister.
Variables (s : TaskManager) (f p i o e : Z).
Hypothesis W : wf s.
Hypothesis Hw : watched s f.
Hypothesis Hp : fds s !! f = Some p.
Hypothesis Ht : processes s !! p = Some [i; o; e].

Lemma watched_not_input q t x :
  processes s !! q = Some t → t !! 0%nat = Some x → x ≠ f.
Proof.
  intros Hq Hx ->.
  destruct (wf_triple s W q t Hq) as (i' & o' & e' & -> & _ & _ & _ & _ & Hti & _).
  injection Hx as ->. destruct Hw as [_ (ty & Hty & Hr)].
  rewrite Hti in Hty. injection Hty as <-. by apply polled_role_not_FDIN.
Qed.

Lemma other_process_untouched q t :
  q ≠ p → processes s !! q = Some t → f ∉ t.
Proof.
  intros Hqp Hq Hf. apply Hqp. symmetry. by eapply (wf_own s W q t f p).
Qed.

Lemma wf_triple_other q t :
  q ≠ p → processes s !! q = Some t →
  ∃ i' o' e', t = [i'; o'; e'] ∧ i' ≠ o' ∧ i' ≠ e' ∧ o' ≠ e' ∧
    delete f (fds s) !! i' = Some q ∧ fdtype s !! i' = Some FDIN ∧
    (is_Some (delete f (fds s) !! o') ∨ is_Some (delete f (fds s) !! e')) ∧
    fdtype s !! o' = Some FDOUT ∧ fdtype s !! e' = Some FDERR.
Proof.
  intros Hqp Hq. pose proof (other_process_untouched q t Hqp Hq) as Hf.
  destruct (wf_triple s W q t Hq) as (i' & o' & e' & -> & ? & ? & ? & ? & ? & Hl).
  exists i', o', e'.
  rewrite !lookup_delete_ne by set_solver. done.
Qed.

Lemma wf_delete_keep x :
  x ∈ [o; e] → x ≠ f → is_Some (fds s !! x) → wf (set_fds (delete f) s).
Proof.
  intros Hx Hxf Hreg. split; simpl.
  - intros q t Hq. destruct (decide (q = p)) as [->|Hqp];
      [|by apply wf_triple_other].
    rewrite Ht in Hq. injection Hq as <-.
    destruct (wf_triple s W p _ Ht)
      as (i' & o' & e' & [= -> -> ->] & ? & ? & ? & ? & ? & _ & ? & ?).
    exists i', o', e'.
    assert (i' ≠ f) by (by eapply (watched_not_input p [i'; o'; e'])).
    rewrite lookup_delete_ne by done.
    assert (is_Some (delete f (fds s) !! o') ∨ is_Some (delete f (fds s) !! e')).
    { apply elem_of_cons in Hx as [->|Hx]; [left|right].
      - by rewrite lookup_delete_ne.
      - apply list_elem_of_singleton in Hx as ->. by rewrite lookup_delete_ne. }
    done.
  - intros q t y r Hq Hy [_ Hr]%lookup_delete_Some. by eapply (wf_own s W).
  - apply (wf_files s W).
  - intros y r [_ Hr]%lookup_delete_Some. by eapply (wf_pid s W).
  - intros y r ty [_ Hr]%lookup_delete_Some. by apply (wf_owner s W).
  - intros y [r [_ Hr]%lookup_delete_Some]. by apply (wf_typed s W).
Qed.

Lemma wf_delete_retire :
  (∀ x, x ∈ [o; e] → x ≠ f → fds s !! x = None) →
  wf (set_processgbprot (delete p) (set_processes (delete p) (set_fds (delete f) s))).
Proof.
  intros Hgone. split; simpl.
  - intros q t [Hqp Hq]%lookup_delete_Some. by apply wf_triple_other.
  - intros q t y r [_ Hq]%lookup_delete_Some Hy [_ Hr]%lookup_delete_Some.
    by eapply (wf_own s W).
  - intros q. rewrite !lookup_delete. case_decide; [done|apply (wf_files s W)].
  - intros y r [_ Hr]%lookup_delete_Some. by eapply (wf_pid s W).
  - intros y r ty [Hyf Hr]%lookup_delete_Some Hty Hrole.
    destruct (wf_owner s W y r ty Hr Hty Hrole) as (t & Hq & Hy).
    exists t. split; [|done]. apply lookup_delete_Some. split; [|done].
    intros <-. rewrite Ht in Hq. injection Hq as <-.
    destruct (wf_triple s W p _ Ht)
      as (i' & o' & e' & [= -> -> ->] & ? & ? & ? & ? & Hti & _).
    apply elem_of_cons in Hy as [->|Hy].
    + rewrite Hti in Hty. injection Hty as <-.
      by apply polled_role_not_FDIN.
    + rewrite (Hgone y Hy) in Hr; [done|congruence].
  - intros y [r [_ Hr]%lookup_delete_Some]. by apply (wf_typed s W).
Qed.
End Deregister.

Lemma truthy_after_delete s f x :
  truthy (delete f (fds s) !! x) = true → x ≠ f ∧ is_Some (fds s !! x).
Proof.
  destruct (delete f (fds s) !! x) as [q|] eqn:E; [|done].
  apply lookup_delete_Some in E as [? ?]. eauto.
Qed.

Lemma falsy_after_delete s f x :
  wf s → truthy (delete f (fds s) !! x) = false → x ≠ f → fds s !! x = None.
Proof.
  intros W E Hx. rewrite lookup_delete_ne in E by done.
  destruct (fds s !! x) as [q|] eqn:Hq; [|done].
  apply (wf_pid s W) in Hq. simpl in E.
  apply negb_false_iff, Z.eqb_eq in E. done.
Qed.

Lemma wf_eos_state f s p :
  wf s → watched s f → fds s !! f = Some p → wf (eos_state f p s).
Proof.
  intros W Hw Hp.
  destruct (watched_owner s f W Hw)
    as (p' & i & o & e & Hp' & Ht & Hg & Hio & Hie & Hoe & Hfi & Hfoe & Hi & Hti).
  assert (p' = p) as -> by congruence.
  unfold eos_state. simpl. rewrite Ht, count3.
  rewrite (lookup_delete_ne _ f i) by done. rewrite Hi. simpl.
  assert (p ≠ 0) as Hp0 by (by eapply (wf_pid s W)).
  apply Z.eqb_neq in Hp0. rewrite Hp0. simpl.
  destruct (truthy (delete f (fds s) !! o)) eqn:Eo,
           (truthy (delete f (fds s) !! e)) eqn:Ee; simpl.
  - apply truthy_after_delete in Eo as [? ?].
    apply (wf_delete_keep s f p i o e W Hw Hp Ht o); [set_solver|done..].
  - apply truthy_after_delete in Eo as [? ?].
    apply (wf_delete_keep s f p i o e W Hw Hp Ht o); [set_solver|done..].
  - apply truthy_after_delete in Ee as [? ?].
    apply (wf_delete_keep s f p i o e W Hw Hp Ht e); [set_solver|done..].
  - apply (wf_delete_retire s f p i o e W Hw Hp Ht).
    intros x Hx Hxf. apply elem_of_cons in Hx as [->|Hx].
    + by eapply falsy_after_delete.
    + apply list_elem_of_singleton in Hx as ->. by eapply falsy_after_delete.
Qed.

(** *** What one event does to a well-formed manager *)

Lemma eos_state_fds f p s : fds (eos_state f p s) = delete f (fds s).
Proof. unfold eos_state. simpl. by repeat case_match. Qed.

Lemma eos_state_fdtype f p s : fdtype (eos_state f p s) = fdtype s.
Proof. unfold eos_state. simpl. by repeat case_match. Qed.

Lemma eos_state_data f p s : data (eos_state f p s) = data s.
Proof. unfold eos_state. simpl. by repeat case_match. Qed.

Lemma eos_state_cwd f p s : cwd (eos_state f p s) = cwd s.
Proof. unfold eos_state. simpl. by repeat case_match. Qed.

Lemma eos_state_processes f p s :
  processes (eos_state f p s) = processes s ∨
  processes (eos_state f p s) = delete p (processes s).
Proof. unfold eos_state. simpl. repeat case_match; auto. Qed.

Lemma handle_event_handled ev s l :
  wf s → watched s (ev_fd ev) →
  ∃ r s' l', handle_event ev (World s l) = (r, World s' (l ++ l')) ∧
             handled ev s r s' l'.
Proof.
  intros W Hw.
  destruct (watched_owner s _ W Hw)
    as (p & i & o & e & Hp & Ht & Hg & _ & _ & _ & _ & Hfoe & _ & _).
  assert (ev_fd ev ∈ [i; o; e]) as Hin by set_solver.
  destruct (decide (ev_state ev = READ)) as [Hst|Hst].
  - destruct (ev_read ev) as [d|] eqn:Hrd.
    + destruct (decide (d = "")) as [->|Hd].
      * eexists _, _, _. split; [by eapply handle_event_eof|by constructor].
      * eexists _, _, _. split; [by eapply handle_event_data|by constructor].
    + eexists _, _, _. split; [by eapply handle_event_read_fails|by constructor].
  - destruct (in_tuple (ev_state ev) [_EPOLLHUP; _EPOLLRDHUP]) eqn:Hin'.
    + eexists _, _, _. split; [by eapply handle_event_hangup|by constructor].
    + eexists _, _, [].
      rewrite app_nil_r. split; [by eapply handle_event_other|by constructor].
Qed.

Lemma handled_keeps ev s r s' l' :
  handled ev s r s' l' → step_keeps (ev_fd ev) s s'.
Proof.
  assert (∀ p, step_keeps (ev_fd ev) s (eos_state (ev_fd ev) p s)) as Heos.
  { intros p. split.
    - apply eos_state_cwd.
    - apply eos_state_fdtype.
    - intros x Hx. rewrite eos_state_fds. by apply lookup_delete_ne.
    - rewrite eos_state_fds. apply delete_subseteq.
    - destruct (eos_state_processes (ev_fd ev) p s) as [-> | ->];
        [done|apply delete_subseteq]. }
  destruct 1; try apply Heos; by split.
Qed.

Lemma handled_wf ev s r s' l' :
  wf s → watched s (ev_fd ev) → handled ev s r s' l' → wf s'.
Proof.
  intros W Hw. destruct 1; try done; try by apply wf_eos_state.
  by apply wf_out_state.
Qed.

Lemma handled_effects ev s r s' l' eff :
  handled ev s r s' l' → eff ∈ l' →
  eff = OsRead (ev_fd ev) 4096 ∨ eff = FileClose (ev_fd ev).
Proof. destruct 1; set_solver. Qed.

(** *** A whole batch, a whole round, the whole loop *)

Lemma evolves_refl s : evolves s s.
Proof. by split. Qed.

Lemma evolves_polled s s' f : evolves s s' → polled_fd s' f ↔ polled_fd s f.
Proof. intros E. unfold polled_fd. by rewrite (evolves_fdtype _ _ E). Qed.

Lemma evolves_trans s1 s2 s3 : evolves s1 s2 → evolves s2 s3 → evolves s1 s3.
Proof.
  intros E1 E2. split.
  - by rewrite (evolves_cwd _ _ E2), (evolves_cwd _ _ E1).
  - by rewrite (evolves_fdtype _ _ E2), (evolves_fdtype _ _ E1).
  - etrans; [apply (evolves_fds _ _ E2)|apply (evolves_fds _ _ E1)].
  - intros x Hx. rewrite (evolves_unpolled _ _ E2), (evolves_unpolled _ _ E1); [done..|].
    by rewrite (evolves_polled _ _ _ E1).
  - etrans; [apply (evolves_processes _ _ E2)|apply (evolves_processes _ _ E1)].
Qed.

Lemma effect_ok_evolves s s' eff : evolves s s' → effect_ok s' eff → effect_ok s eff.
Proof.
  intros E. destruct eff; simpl; try done;
    by rewrite (evolves_polled _ _ _ E).
Qed.

Lemma watched_polled s f : watched s f → polled_fd s f.
Proof. by intros [_ ?]. Qed.

Lemma handled_evolves ev s r s' l' :
  watched s (ev_fd ev) → handled ev s r s' l' → evolves s s'.
Proof.
  intros Hw H. destruct (handled_keeps _ _ _ _ _ H) as [K1 K2 K3 K4 K5].
  split; try done. intros x Hx. apply K3. intros ->.
  by apply Hx, watched_polled.
Qed.

Lemma handled_effect_ok ev s r s' l' :
  watched s (ev_fd ev) → handled ev s r s' l' → Forall (effect_ok s) l'.
Proof.
  intros Hw H. apply Forall_forall. intros eff Heff.
  destruct (handled_effects _ _ _ _ _ _ H Heff) as [-> | ->]; simpl;
    auto using watched_polled.
Qed.

Lemma handled_result ev s r s' l' :
  handled ev s r s' l' → r = Val tt ∨ r = Raise OSError ∧ s' = s.
Proof. destruct 1; auto. Qed.

Lemma for_each_batch evs s l :
  wf s → events_ok s evs →
  ∃ r s' l', for_each evs handle_event (World s l) = (r, World s' (l ++ l')) ∧
    wf s' ∧ evolves s s' ∧ Forall (effect_ok s) l' ∧
    (r = Val tt ∨ r = Raise OSError).
Proof.
  revert s l. induction evs as [|ev evs IH]; intros s l W [Hnd Hall].
  - exists (Val tt), s, []. rewrite app_nil_r.
    split_and!; auto using evolves_refl.
  - apply NoDup_cons in Hnd as [Hfresh Hnd].
    apply Forall_cons in Hall as [Hw Hall].
    destruct (handle_event_handled ev s l W Hw) as (r1 & s1 & l1 & E1 & H1).
    pose proof (handled_wf _ _ _ _ _ W Hw H1) as W1.
    pose proof (handled_evolves _ _ _ _ _ Hw H1) as V1.
    pose proof (handled_effect_ok _ _ _ _ _ Hw H1) as F1.
    simpl. unfold bind at 1. rewrite E1.
    destruct (handled_result _ _ _ _ _ H1) as [-> | [-> ->]].
    + assert (events_ok s1 evs) as Hok.
      { split; [done|]. apply Forall_forall. intros ev' Hev'.
        rewrite Forall_forall in Hall. destruct (Hall ev' Hev') as [Hreg Hrole].
        split.
        - rewrite (keeps_fds_other _ _ _ (handled_keeps _ _ _ _ _ H1)); [done|].
          intros Heq. apply Hfresh. rewrite <- Heq.
          apply list_elem_of_fmap. eauto.
        - by rewrite (evolves_fdtype _ _ V1). }
      destruct (IH s1 (l ++ l1) W1 Hok) as (r & s' & l' & E & W' & V & F & R).
      exists r, s', (l1 ++ l'). rewrite app_assoc. split_and!; try done.
      * by eapply evolves_trans.
      * apply Forall_app. split; [done|].
        eapply Forall_impl; [exact F|]. intros eff. by apply effect_ok_evolves.
    + exists (Raise OSError), s, l1. split_and!; auto.
Qed.

Lemma elem_of_dict_keys {V} (d : gmap Z V) x : x ∈ dict_keys d ↔ is_Some (d !! x).
Proof.
  unfold dict_keys. rewrite merge_sort_Permutation, list_elem_of_fmap. split.
  - intros ([k v] & -> & Hkv%elem_of_map_to_list). by eexists.
  - intros [v Hv]. exists (x, v). split; [done|]. by apply elem_of_map_to_list.
Qed.

Lemma NoDup_dict_keys {V} (d : gmap Z V) : NoDup (dict_keys d).
Proof.
  unfold dict_keys. rewrite merge_sort_Permutation.
  apply NoDup_fst_map_to_list.
Qed.

Lemma elem_of_watch_set s x : x ∈ watch_set s ↔ watched s x.
Proof.
  unfold watch_set, watched, has_polled_role, polled_role.
  rewrite list_elem_of_filter, elem_of_dict_keys. split.
  - intros [Hrole Hreg]. split; [done|].
    destruct (fdtype s !! x) as [ty|]; [|done].
    exists ty. split; [done|]. by apply Is_true_true.
  - intros [Hreg (ty & Hty & Hrole)]. rewrite Hty. split; [|done].
    by apply Is_true_true.
Qed.

Lemma comprehension_roles xs s l :
  (∀ x, x ∈ xs → is_Some (fdtype s !! x)) →
  comprehension xs
    (λ x, t <- getitem (fdtype s) (Some x) ;; ret (in_tuple t [FDOUT; FDERR]))
    (World s l)
  = (Val (filter (λ x, has_polled_role s x) xs), World s l).
Proof.
  induction xs as [|x xs IH]; intros Hty; [done|].
  destruct (Hty x) as [ty Hx]; [set_solver|].
  cbn [comprehension]. unfold bind at 1.
  assert ((t <- getitem (fdtype s) (Some x) ;; ret (in_tuple t [FDOUT; FDERR]))
            (World s l) = (Val (in_tuple ty [FDOUT; FDERR]), World s l)) as ->.
  { unfold bind, getitem. simpl. by rewrite Hx. }
  unfold bind at 1. rewrite IH by set_solver. unfold ret.
  assert (has_polled_role s x = in_tuple ty [FDOUT; FDERR]) as E
    by (unfold has_polled_role; by rewrite Hx).
  rewrite filter_cons, E.
  destruct (in_tuple ty [FDOUT; FDERR]); by case_decide.
Qed.

Lemma watch_list_eq s l :
  wf s → watch_list (World s l) = (Val (watch_set s), World s l).
Proof.
  intros W. unfold watch_list, bind at 1, get_self. simpl.
  apply comprehension_roles. intros x Hx%elem_of_dict_keys.
  by apply (wf_typed s W).
Qed.

Lemma for_each_emit {A} (xs : list A) (g : A → effect) s l :
  for_each xs (λ x, emit (g x)) (World s l) = (Val tt, World s (l ++ map g xs)).
Proof.
  revert l. induction xs as [|x xs IH]; intros l; simpl.
  - by rewrite app_nil_r.
  - unfold bind, emit at 1. simpl. rewrite IH. by rewrite <- app_assoc.
Qed.

Lemma poll_round_eq reply s l :
  wf s →
  poll_round reply (World s l)
  = (match reply with Active evs => Val evs | PollFails => Raise IOError end,
     World s (l ++ round_effects s)).
Proof.
  intros W. unfold poll_round, bind at 1, emit at 1. simpl.
  unfold bind at 1. rewrite watch_list_eq by done.
  unfold bind at 1. rewrite for_each_emit.
  unfold bind, emit. simpl. unfold round_effects.
  assert (∀ l', ((l ++ [PollCreate]) ++ l') ++ [PollWait]
                = l ++ PollCreate :: l' ++ [PollWait]) as Hassoc
    by (intros l'; by rewrite <- !app_assoc).
  rewrite Hassoc.
  by destruct reply.
Qed.

Lemma round_effects_ok s : Forall (effect_ok s) (round_effects s).
Proof.
  unfold round_effects. apply Forall_cons. split; [done|].
  apply Forall_app. split; [|by repeat constructor].
  apply Forall_fmap, Forall_forall. intros x Hx%elem_of_watch_set. simpl.
  split; [by apply watched_polled|done].
Qed.

Lemma wait_eq replies s l :
  wait replies (World s l)
  = if bool_decide (processes s = ∅) then (Val Returned, World s l)
    else match replies with
         | [] => (Val Polling, World s l)
         | r :: rest =>
             match poll_round r (World s l) with
             | (Val active, w1) =>
                 match for_each active handle_event w1 with
                 | (Val _, w2) => wait rest w2
                 | (Raise e, w2) => (Raise e, w2)
                 end
             | (Raise e, w1) => (Raise e, w1)
             end
         end.
Proof.
  destruct replies; simpl; unfold bind at 1, get_self; simpl;
    by case_bool_decide.
Qed.

Lemma wait_run replies s l :
  wf s → polls_ok replies s →
  ∃ r s' l', wait replies (World s l) = (r, World s' (l ++ l')) ∧
    wf s' ∧ evolves s s' ∧ Forall (effect_ok s) l' ∧ wait_outcome r s'.
Proof.
  revert s l. induction replies as [|reply rest IH]; intros s l W Hok;
    rewrite wait_eq; case_bool_decide as Hempty.
  - exists (Val Returned), s, []. rewrite app_nil_r.
    split_and!; auto using evolves_refl. by left.
  - exists (Val Polling), s, []. rewrite app_nil_r.
    split_and!; auto using evolves_refl. right; by left.
  - exists (Val Returned), s, []. rewrite app_nil_r.
    split_and!; auto using evolves_refl. by left.
  - rewrite poll_round_eq by done.
    destruct Hok as [Hok|Hok]; [done|]. destruct reply as [evs|].
    + destruct Hok as [Hev Hnext].
      destruct (for_each_batch evs s (l ++ round_effects s) W Hev)
        as (r1 & s1 & l1 & E1 & W1 & V1 & F1 & R1).
      rewrite E1. destruct R1 as [-> | ->].
      * destruct (IH s1 ((l ++ round_effects s) ++ l1) W1 (Hnext _ _ E1))
          as (r & s' & l' & E & W' & V & F & R).
        exists r, s', (round_effects s ++ l1 ++ l').
        rewrite E, <- !app_assoc. split_and!; try done.
        -- by eapply evolves_trans.
        -- rewrite !Forall_app. split_and!; auto using round_effects_ok.
           eapply Forall_impl; [exact F|]. intros eff. by apply effect_ok_evolves.
      * exists (Raise OSError), s1, (round_effects s ++ l1).
        rewrite <- !app_assoc. split_and!; try done.
        -- rewrite !Forall_app. split_and!; auto using round_effects_ok.
        -- right; right; by left.
    + exists (Raise IOError), s, (round_effects s).
      split_and!; auto using evolves_refl, round_effects_ok.
      right; right; by right.
Qed.

(** *** [execute] *)

Lemma execute_spawned cmd os_spawn pid i o e s l :
  os_spawn (fullcmd_of s cmd) = Spawned pid i o e →
  execute cmd os_spawn (World s l)
  = (Val pid, World (spawned_state pid i o e s) (l ++ execute_effects s cmd)).
Proof.
  intros Hsp. unfold execute, Popen, bind, get_self, emit, modify, ret.
  simpl. fold (fullcmd_of s cmd). rewrite Hsp. simpl.
  by rewrite <- app_assoc.
Qed.

Lemma execute_fails cmd os_spawn s l :
  os_spawn (fullcmd_of s cmd) = SpawnFails →
  execute cmd os_spawn (World s l)
  = (Raise OSError, World s (l ++ execute_effects s cmd)).
Proof.
  intros Hsp. unfold execute, Popen, bind, get_self, emit, modify, ret, raise.
  simpl. fold (fullcmd_of s cmd). rewrite Hsp. simpl.
  by rewrite <- app_assoc.
Qed.

Lemma wf_init d : wf (__init__ d).
Proof. split; simpl; intros *; rewrite ?lookup_empty; done. Qed.

Lemma wf_spawned pid i o e s :
  wf s → fresh_spawn s pid i o e → wf (spawned_state pid i o e s).
Proof.
  intros W (Hpid & Hnew & Hnd & Hfresh).
  apply NoDup_cons in Hnd as [Hi Hnd]. apply NoDup_cons in Hnd as [Ho _].
  assert (i ≠ o ∧ i ≠ e ∧ o ≠ e) as (Hio & Hie & Hoe) by set_solver.
  assert (∀ p t x, processes s !! p = Some t → x ∈ t →
            x ≠ i ∧ x ≠ o ∧ x ≠ e) as Hfresh'.
  { intros p t x Hp Hx. specialize (Hfresh p t x Hp Hx). set_solver. }
  split; simpl.
  - intros p t Hp. destruct (decide (p = pid)) as [->|Hne].
    + rewrite lookup_insert_eq in Hp. injection Hp as <-.
      exists i, o, e. simplify_map_eq. split_and!; eauto.
    + rewrite lookup_insert_ne in Hp by done.
      destruct (wf_triple s W p t Hp)
        as (i' & o' & e' & -> & ? & ? & ? & Hi' & Hti & Hlive & Hto & Hte).
      destruct (Hfresh' p _ i' Hp) as (? & ? & ?); [set_solver|].
      destruct (Hfresh' p _ o' Hp) as (? & ? & ?); [set_solver|].
      destruct (Hfresh' p _ e' Hp) as (? & ? & ?); [set_solver|].
      exists i', o', e'. simplify_map_eq. done.
  - intros p t x q Hp Hx Hq. destruct (decide (p = pid)) as [->|Hne].
    + rewrite lookup_insert_eq in Hp. injection Hp as <-.
      assert (x = i ∨ x = o ∨ x = e) as [->|[->| ->]] by set_solver;
        simplify_map_eq; done.
    + rewrite lookup_insert_ne in Hp by done.
      destruct (Hfresh' p t x Hp Hx) as (? & ? & ?).
      simplify_map_eq. by eapply (wf_own s W).
  - intros p. destruct (decide (p = pid)) as [->|Hne].
    + by rewrite !lookup_insert_eq.
    + rewrite !lookup_insert_ne by done. apply (wf_files s W).
  - intros f p Hf.
    destruct (decide (f = e)) as [->|?]; [by simplify_map_eq|].
    destruct (decide (f = o)) as [->|?]; [by simplify_map_eq|].
    destruct (decide (f = i)) as [->|?]; [by simplify_map_eq|].
    simplify_map_eq. by eapply (wf_pid s W).
  - intros f p ty Hf Hty Hrole.
    destruct (decide (f = e)) as [->|?];
      [simplify_map_eq; exists [i; o; e]; split; [done|set_solver]|].
    destruct (decide (f = o)) as [->|?];
      [simplify_map_eq; exists [i; o; e]; split; [done|set_solver]|].
    destruct (decide (f = i)) as [->|?]; [by simplify_map_eq|].
    simplify_map_eq.
    destruct (wf_owner s W f p ty Hf Hty Hrole) as (t & Hp & Hft).
    exists t. split; [|done]. rewrite lookup_insert_ne; [done|].
    intros <-. congruence.
  - intros f Hf.
    destruct (decide (f = e)) as [->|?]; [by simplify_map_eq|].
    destruct (decide (f = o)) as [->|?]; [by simplify_map_eq|].
    destruct (decide (f = i)) as [->|?]; [by simplify_map_eq|].
    simplify_map_eq. by apply (wf_typed s W).
Qed.

Lemma wf_execute cmd os_spawn s :
  wf s → spawn_reply_ok s (os_spawn (fullcmd_of s cmd)) →
  wf (self (snd (run (execute cmd os_spawn) s))).
Proof.
  intros W Hok. unfold run.
  destruct (os_spawn (fullcmd_of s cmd)) as [pid i o e|] eqn:Hsp.
  - rewrite (execute_spawned _ _ _ _ _ _ _ _ Hsp). by apply wf_spawned.
  - by rewrite (execute_fails _ _ _ _ Hsp).
Qed.

(** *** The concrete session *)

Lemma demo_is_executed :
  run (execute "ls" (λ _, Spawned 100 4 5 7)) (__init__ ".")
  = (Val 100, World demo [Print "Executing cd .; ls"; PopenShell "cd .; ls"]).
Proof. reflexivity. Qed.

Lemma polled_role_FDOUT : polled_role FDOUT.
Proof. by vm_compute. Qed.

Lemma polled_role_FDERR : polled_role FDERR.
Proof. by vm_compute. Qed.

Lemma demo_wf : wf demo.
Proof.
  apply wf_spawned; [apply wf_init|].
  split_and!; [done|done| |intros p t x Hp; simpl in Hp; by rewrite lookup_empty in Hp].
  repeat (apply NoDup_cons; split; [set_solver|]). apply NoDup_nil_2.
Qed.

Lemma demo_watched_out : watched demo 5.
Proof. split; [by eexists|]. exists FDOUT. split; [done|apply polled_role_FDOUT]. Qed.

Lemma demo_watched_err : watched demo 7.
Proof. split; [by eexists|]. exists FDERR. split; [done|apply polled_role_FDERR]. Qed.

(** ** The claims *)


Lemma wait_returned_empty replies w w' :
  wait replies w = (Val Returned, w') → processes (self w') = ∅.
Proof.
  revert w. induction replies as [|reply rest IH]; intros [s l] H;
    rewrite wait_eq in H; case_bool_decide as Hempty; simplify_eq/=; try done.
  destruct (poll_round reply _) as [[active|?] w1]; [|done].
  destruct (for_each active handle_event w1) as [[?|?] w2]; [|done].
  by eapply IH.
Qed.






Lemma demo_replies_ok : polls_ok demo_replies demo.
Proof.
  right. split.
  - split; [nodup_concrete|].
    apply Forall_cons; split; [apply demo_watched_out|].
    apply Forall_cons; split; [apply demo_watched_err|]. apply Forall_nil_2.
  - intros l w' H. vm_compute in H. injection H as <-. simpl.
    right. split.
    + split; [nodup_concrete|].
      apply Forall_cons; split; [|apply Forall_nil_2].
      split; [by eexists|].
      exists FDOUT. split; [done|apply polled_role_FDOUT].
    + intros l' w' H. vm_compute in H. injection H as <-. by left.
Qed.





(** C3.  On that session [wait()] returns without a single read: both
    endpoints are dropped, the process is retired, and no buffer exists for
    it, although both pipes had bytes to deliver. *)
Theorem output_lost_when_child_exits_before_poll :
  fst (run (wait exited_before_poll) demo) = Val Returned ∧
  data (self (snd (run (wait exited_before_poll) demo))) !! Some 100 = None ∧
  log (snd (run (wait exited_before_poll) demo))
  = [PollCreate; PollRegister 5 READ; PollRegister 7 READ; PollWait].
Proof. by vm_compute. Qed.

Lemma handle_event_unclassified state fd rd s l :
  state ≠ READ → in_tuple state [_EPOLLHUP; _EPOLLRDHUP] = false →
  wf s → watched s fd →
  ∃ p, fds s !! fd = Some p ∧
       handle_event (Event fd state rd) (World s l)
       = (Val tt, World (eos_state fd p s) l).
Proof.
  intros Hst Hin W Hw.
  destruct (watched_owner s fd W Hw) as (p & i & o & e & Hp & Ht & Hg & _).
  exists p. split; [done|].
  by eapply (handle_event_other (Event fd state rd)).
Qed.

(** C10.  The state [EPOLLIN | EPOLLHUP] is neither exactly the data-ready
    flag nor exactly one of the two hang-up flags, and for every state of
    that kind the dispatch performs no read at all (the effect log is
    unchanged), removes the endpoint from the registry and runs the
    retirement check, whatever bytes a read would have delivered; the
    buffers are left as they were. *)
Theorem combined_flags_skip_the_read :
  (Z.lor _EPOLLIN _EPOLLHUP ≠ READ ∧
   in_tuple (Z.lor _EPOLLIN _EPOLLHUP) [_EPOLLHUP; _EPOLLRDHUP] = false) ∧
  ∀ state fd d s l,
    state ≠ READ → in_tuple state [_EPOLLHUP; _EPOLLRDHUP] = false →
    wf s → watched s fd →
    ∃ p, fds s !! fd = Some p ∧
      handle_event (Event fd state (ReadData d)) (World s l)
      = (Val tt, World (eos_state fd p s) l) ∧
      fds (eos_state fd p s) !! fd = None ∧
      data (eos_state fd p s) = data s.
Proof.
  split; [by vm_compute|].
  intros state fd d s l Hst Hin W Hw.
  destruct (handle_event_unclassified state fd (ReadData d) s l Hst Hin W Hw)
    as (p & Hp & E).
  exists p. split_and!; [done|done| |apply eos_state_data].
  rewrite eos_state_fds. apply lookup_delete_eq.
Qed.

Lemma combined_flags_skip_the_read_witness :
  wf demo ∧ watched demo 5 ∧
  ∃ p, fds demo !! 5 = Some p ∧
    handle_event (Event 5 (Z.lor _EPOLLIN _EPOLLHUP) (ReadData "out")) (World demo [])
    = (Val tt, World (eos_state 5 p demo) []) ∧
    fds (eos_state 5 p demo) !! 5 = None ∧
    data (eos_state 5 p demo) = data demo.
Proof.
  split; [apply demo_wf|]. split; [apply demo_watched_out|].
  apply (proj2 combined_flags_skip_the_read
           (Z.lor _EPOLLIN _EPOLLHUP) 5 "out" demo []);
    [by vm_compute|by vm_compute|apply demo_wf|apply demo_watched_out].
Defined.

(** C6.  For an endpoint event of the loop, a read that delivers no bytes
    and a hang-up state lead to the same manager: the same endpoint leaves
    the registry, the same retirement decision is taken, and neither raises.
    The two differ only in what was asked of the environment: the read in
    one case, the close of the stream in the other. *)
Theorem zero_length_read_same_as_hangup s fd hup rd l :
  wf s → watched s fd →
  in_tuple hup [_EPOLLHUP; _EPOLLRDHUP] = true →
  ∃ s', handle_event (Event fd READ (ReadData "")) (World s l)
        = (Val tt, World s' (l ++ [OsRead fd 4096])) ∧
        handle_event (Event fd hup rd) (World s l)
        = (Val tt, World s' (l ++ [FileClose fd])).
Proof.
  intros W Hw Hhup.
  destruct (watched_owner s fd W Hw) as (p & i & o & e & Hp & Ht & Hg & _ & _ & _ & _ & Hfoe & _).
  exists (eos_state fd p s). split.
  - by eapply (handle_event_eof (Event fd READ (ReadData ""))).
  - eapply (handle_event_hangup (Event fd hup rd)); try done.
    + simpl. intros ->. by vm_compute in Hhup.
    + simpl. set_solver.
Qed.

Lemma zero_length_read_same_as_hangup_witness :
  wf demo ∧ watched demo 7 ∧
  ∃ s', handle_event (Event 7 READ (ReadData "")) (World demo [])
        = (Val tt, World s' ([] ++ [OsRead 7 4096])) ∧
        handle_event (Event 7 _EPOLLHUP (ReadData "")) (World demo [])
        = (Val tt, World s' ([] ++ [FileClose 7])).
Proof.
  split; [apply demo_wf|]. split; [apply demo_watched_err|].
  apply (zero_length_read_same_as_hangup demo 7 _EPOLLHUP (ReadData "") []);
    [apply demo_wf|apply demo_watched_err|by vm_compute].
Defined.

(** C5, as stated, fails: after the retirement the input endpoint of the
    retired process is still in the endpoint registry and all three endpoints
    still have their role entries. *)
Lemma retirement_leaves_registry_entries :
  processes demo_retired !! 100 = None ∧
  fds demo_retired !! 4 = Some 100 ∧
  fdtype demo_retired !! 4 = Some FDIN ∧
  fdtype demo_retired !! 5 = Some FDOUT ∧
  fdtype demo_retired !! 7 = Some FDERR.
Proof. by vm_compute. Qed.

Lemma handle_event_deterministic ev s l r s' l' :
  wf s → watched s (ev_fd ev) →
  handle_event ev (World s l) = (r, World s' l') →
  ∃ l1, l' = l ++ l1 ∧ handled ev s r s' l1.
Proof.
  intros W Hw E.
  destruct (handle_event_handled ev s l W Hw) as (r0 & s0 & l0 & E0 & H0).
  rewrite E0 in E. injection E as <- <- <-. eauto.
Qed.

(** C5, amended.  When the loop body retires a process, the process leaves
    the tracked set and the table of its stream objects; its output and error
    endpoints are no longer in the endpoint registry, its input endpoint
    still is, the role table is unchanged, the buffers are unchanged, and the
    other tracked processes stay tracked. *)
Theorem retirement_effect ev s l r w' p i o e :
  wf s → watched s (ev_fd ev) →
  handle_event ev (World s l) = (r, w') →
  processes s !! p = Some [i; o; e] →
  processes (self w') !! p = None →
  processgbprot (self w') !! p = None ∧
  fds (self w') !! o = None ∧ fds (self w') !! e = None ∧
  fds (self w') !! i = Some p ∧
  fdtype (self w') = fdtype s ∧
  data (self w') = data s ∧
  ∀ q, q ≠ p → processes (self w') !! q = processes s !! q.
Proof.
  intros W Hw E Hp Hgone. destruct w' as [s' l']. simpl in *.
  destruct (handle_event_deterministic _ _ _ _ _ _ W Hw E) as (l1 & -> & H).
  pose proof (handled_wf _ _ _ _ _ W Hw H) as W'.
  pose proof (handled_evolves _ _ _ _ _ Hw H) as V.
  destruct (wf_triple s W p _ Hp)
    as (i' & o' & e' & [= <- <- <-] & ? & ? & ? & Hi & Hti & _ & Hto & Hte).
  assert (∀ x ty, x ∈ [o; e] → fdtype s !! x = Some ty → polled_role ty →
            fds s' !! x = None) as Hdrop.
  { intros x ty Hx Hty Hrole. destruct (fds s' !! x) as [q|] eqn:Hq; [|done].
    pose proof (lookup_weaken _ _ _ _ Hq (evolves_fds _ _ V)) as Hq'.
    assert (q = p) as ->
      by (apply (wf_own s W p [i; o; e] x q Hp); [set_solver|done]).
    rewrite <- (evolves_fdtype _ _ V) in Hty.
    destruct (wf_owner s' W' x p ty Hq Hty Hrole) as (t & Ht & _). congruence. }
  split_and!.
  - by rewrite (wf_files s' W'), Hgone.
  - eapply Hdrop; [set_solver|done|apply polled_role_FDOUT].
  - eapply Hdrop; [set_solver|done|apply polled_role_FDERR].
  - rewrite (evolves_unpolled _ _ V); [done|].
    intros (ty & Hty & Hrole). rewrite Hti in Hty. injection Hty as <-.
    by apply polled_role_not_FDIN.
  - apply (evolves_fdtype _ _ V).
  - destruct H; try done; try apply eos_state_data.
    simpl in Hgone. congruence.
  - intros q Hq. destruct H; try done.
    all: match goal with
         | |- processes (eos_state ?f ?p0 _) !! _ = _ =>
             destruct (eos_state_processes f p0 s) as [Hsame|Hdel];
             [by rewrite Hsame|];
             rewrite Hdel in Hgone |- *;
             destruct (decide (p0 = p)) as [->|Hne];
             [by rewrite lookup_delete_ne|
              rewrite lookup_delete_ne in Hgone by done; congruence]
         end.
Qed.

Lemma demo_err_closed_wf : wf demo_err_closed.
Proof. by apply wf_eos_state; [apply demo_wf|apply demo_watched_err|]. Qed.

Lemma demo_err_closed_watched_out : watched demo_err_closed 5.
Proof. split; [by eexists|]. exists FDOUT. split; [done|apply polled_role_FDOUT]. Qed.

Lemma retirement_effect_witness :
  let w' := snd (handle_event (Event 5 _EPOLLHUP (ReadData ""))
                   (World demo_err_closed [])) in
  wf demo_err_closed ∧ watched demo_err_closed 5 ∧
  processes demo_err_closed !! 100 = Some [4; 5; 7] ∧
  processes (self w') !! 100 = None ∧
  processgbprot (self w') !! 100 = None ∧
  fds (self w') !! 5 = None ∧ fds (self w') !! 7 = None ∧
  fds (self w') !! 4 = Some 100 ∧
  fdtype (self w') = fdtype demo_err_closed ∧
  data (self w') = data demo_err_closed.
Proof.
  intros w'.
  destruct (retirement_effect (Event 5 _EPOLLHUP (ReadData "")) demo_err_closed []
              (fst (handle_event (Event 5 _EPOLLHUP (ReadData ""))
                      (World demo_err_closed []))) w' 100 4 5 7
              demo_err_closed_wf demo_err_closed_watched_out)
    as (H1 & H2 & H3 & H4 & H5 & H6 & _);
    [apply surjective_pairing|by vm_compute|by vm_compute|].
  split_and!; try done.
  - apply demo_err_closed_wf.
  - apply demo_err_closed_watched_out.
Defined.

(** C4.  For a process tracked by a well-formed manager, over a whole run
    of [wait()] and over a call of [execute]: the input endpoint is not in
    the list line 96 builds, no registration with the readiness mechanism and
    no close is ever issued for it, and it stays in the endpoint registry
    under the identifier of its process, so it keeps counting (as true) in
    the completion test. *)
Theorem input_endpoint_never_polled_closed_or_removed s p i o e :
  wf s → processes s !! p = Some [i; o; e] →
  (∀ replies r w',
     polls_ok replies s → run (wait replies) s = (r, w') →
     (i ∉ watch_set s) ∧ (∀ m, PollRegister i m ∉ log w') ∧
     (FileClose i ∉ log w') ∧
     fds (self w') !! i = Some p ∧ truthy (fds (self w') !! i) = true) ∧
  (∀ cmd os_spawn r w',
     spawn_reply_ok s (os_spawn (fullcmd_of s cmd)) →
     run (execute cmd os_spawn) s = (r, w') →
     (∀ m, PollRegister i m ∉ log w') ∧ (FileClose i ∉ log w') ∧
     fds (self w') !! i = Some p ∧ truthy (fds (self w') !! i) = true).
Proof.
  intros W Hp.
  destruct (wf_triple s W p _ Hp)
    as (i' & o' & e' & [= <- <- <-] & _ & _ & _ & Hi & Hti & _).
  assert (¬ polled_fd s i) as Hnot.
  { intros (ty & Hty & Hrole). rewrite Hti in Hty. injection Hty as <-.
    by apply polled_role_not_FDIN. }
  assert (p ≠ 0) as Hp0 by (by eapply (wf_pid s W)).
  assert (truthy (Some p) = true) as Htrue
    by (by apply negb_true_iff, Z.eqb_neq).
  split.
  - intros replies r w' Hok Hrun.
    destruct (wait_run replies s [] W Hok) as (r0 & s' & l' & E & W' & V & F & _).
    unfold run in Hrun. rewrite E in Hrun. injection Hrun as <- <-. simpl.
    rewrite Forall_forall in F.
    assert (fds s' !! i = Some p) as Hi'
      by (by rewrite (evolves_unpolled _ _ V)).
    split_and!.
    + intros Hin%elem_of_watch_set. by apply Hnot, watched_polled.
    + intros m Hin. by destruct (F _ Hin).
    + intros Hin. by apply Hnot, (F _ Hin).
    + done.
    + by rewrite Hi'.
  - intros cmd os_spawn r w' Hfresh Hrun. unfold run in Hrun.
    assert ((∀ m, PollRegister i m ∉ execute_effects s cmd) ∧
            FileClose i ∉ execute_effects s cmd) as [Hreg Hclose].
    { unfold execute_effects. split; [intros m|]; set_solver. }
    destruct (os_spawn (fullcmd_of s cmd)) as [pid i1 o1 e1|] eqn:Hsp.
    + rewrite (execute_spawned _ _ _ _ _ _ _ _ Hsp) in Hrun.
      injection Hrun as <- <-. simpl.
      destruct Hfresh as (_ & _ & _ & Hfresh).
      assert (i ∉ [i1; o1; e1]) as Hout by (apply (Hfresh p _ i Hp); set_solver).
      assert (<[e1:=pid]> (<[o1:=pid]> (<[i1:=pid]> (fds s))) !! i = Some p) as Hi'.
      { rewrite !lookup_insert_ne by set_solver. done. }
      rewrite Hi'. done.
    + rewrite (execute_fails _ _ _ _ Hsp) in Hrun.
      injection Hrun as <- <-. simpl. rewrite Hi. done.
Qed.

Lemma input_endpoint_never_polled_closed_or_removed_witness :
  wf demo ∧ processes demo !! 100 = Some [4; 5; 7] ∧
  polls_ok demo_replies demo ∧
  (4 ∉ watch_set demo) ∧
  (∀ m, PollRegister 4 m ∉ log (snd (run (wait demo_replies) demo))) ∧
  (FileClose 4 ∉ log (snd (run (wait demo_replies) demo))) ∧
  fds (self (snd (run (wait demo_replies) demo))) !! 4 = Some 100.
Proof.
  destruct (input_endpoint_never_polled_closed_or_removed demo 100 4 5 7
              demo_wf eq_refl) as [Hwait _].
  destruct (Hwait demo_replies _ _ demo_replies_ok
              (surjective_pairing (run (wait demo_replies) demo)))
    as (H1 & H2 & H3 & H4 & _).
  split_and!; try done; [apply demo_wf|apply demo_replies_ok].
Defined.

(** C7.  When the spawn fails, [execute] raises at once, in the call
    itself, and the manager it leaves is the manager it found: tracked set,
    registries and buffers are untouched.  Only the announcement and the
    attempted spawn have happened. *)
Theorem spawn_failure_is_synchronous cmd os_spawn s :
  os_spawn (fullcmd_of s cmd) = SpawnFails →
  fst (run (execute cmd os_spawn) s) = Raise OSError ∧
  self (snd (run (execute cmd os_spawn) s)) = s ∧
  log (snd (run (execute cmd os_spawn) s))
  = [Print ("Executing " +:+ fullcmd_of s cmd); PopenShell (fullcmd_of s cmd)].
Proof. intros Hsp. unfold run. by rewrite (execute_fails _ _ _ _ Hsp). Qed.

Lemma spawn_failure_is_synchronous_witness :
  (λ _ : string, SpawnFails) (fullcmd_of demo "ls") = SpawnFails ∧
  fst (run (execute "ls" (λ _, SpawnFails)) demo) = Raise OSError ∧
  self (snd (run (execute "ls" (λ _, SpawnFails)) demo)) = demo.
Proof.
  destruct (spawn_failure_is_synchronous "ls" (λ _, SpawnFails) demo eq_refl)
    as (H1 & H2 & _).
  done.
Defined.

Lemma wait_polling_app pre rest w w1 :
  wait pre w = (Val Polling, w1) → wait (pre ++ rest) w = wait rest w1.
Proof.
  revert w. induction pre as [|reply pre IH]; intros [s l] H;
    rewrite wait_eq in H; case_bool_decide as Hempty; try done.
  - by injection H as <-.
  - rewrite (wait_eq ((reply :: pre) ++ rest)). simpl.
    rewrite bool_decide_false by done.
    destruct (poll_round reply _) as [[active|?] w2]; [|done].
    destruct (for_each active handle_event w2) as [[?|?] w3]; [|done].
    by apply IH.
Qed.

(** C8.  When the readiness mechanism fails in some round of [wait()],
    [wait()] raises that failure, and the manager it leaves is the one
    reached by the rounds before it: every buffer holds exactly the bytes
    captured until then. *)
Theorem poll_failure_keeps_captured_output pre post s w1 :
  wf s → polls_ok pre s →
  run (wait pre) s = (Val Polling, w1) →
  fst (run (wait (pre ++ PollFails :: post)) s) = Raise IOError ∧
  self (snd (run (wait (pre ++ PollFails :: post)) s)) = self w1 ∧
  data (self (snd (run (wait (pre ++ PollFails :: post)) s))) = data (self w1).
Proof.
  intros W Hok Hrun.
  destruct (wait_run pre s [] W Hok) as (r0 & s' & l' & E & W' & _ & _ & R).
  unfold run in *. rewrite E in Hrun. injection Hrun as -> <-.
  rewrite (wait_polling_app _ _ _ _ E), wait_eq.
  destruct R as [[? _]|[[_ Hne]|[?|?]]]; try done.
  rewrite bool_decide_false by done.
  by rewrite poll_round_eq.
Qed.

Lemma poll_failure_keeps_captured_output_witness :
  let pre := [Active [Event 5 READ (ReadData "out")]] in
  wf demo ∧ polls_ok pre demo ∧
  fst (run (wait (pre ++ [PollFails])) demo) = Raise IOError ∧
  data (self (snd (run (wait (pre ++ [PollFails])) demo))) !! Some 100 = Some "out".
Proof.
  intros pre.
  assert (polls_ok pre demo) as Hok.
  { right. split.
    - split; [nodup_concrete|].
      apply Forall_cons; split; [apply demo_watched_out|apply Forall_nil_2].
    - intros l w' H. by right. }
  destruct (poll_failure_keeps_captured_output pre [] demo
              (snd (run (wait pre) demo)) demo_wf Hok)
    as (H1 & _ & H3); [by vm_compute|].
  split_and!; [apply demo_wf|done|done|].
  rewrite H3. by vm_compute.
Defined.

(** C9.  Whatever the command and the working directory, the one process
    [execute] asks for is a shell running the text ["cd " + cwd + "; " +
    cmd]: the directory and the command are spliced in as they are, nothing
    is quoted or escaped, and the reply of that spawn decides the result. *)
Theorem execute_runs_prefixed_shell_command cmd os_spawn s :
  log (snd (run (execute cmd os_spawn) s))
  = [Print ("Executing " +:+ ("cd " +:+ cwd s +:+ "; " +:+ cmd));
     PopenShell ("cd " +:+ cwd s +:+ "; " +:+ cmd)] ∧
  fst (run (execute cmd os_spawn) s)
  = match os_spawn ("cd " +:+ cwd s +:+ "; " +:+ cmd) with
    | Spawned pid _ _ _ => Val pid
    | SpawnFails => Raise OSError
    end.
Proof.
  unfold run. fold (fullcmd_of s cmd).
  destruct (os_spawn (fullcmd_of s cmd)) as [pid i o e|] eqn:Hsp.
  - by rewrite (execute_spawned _ _ _ _ _ _ _ _ Hsp).
  - by rewrite (execute_fails _ _ _ _ Hsp).
Qed.

(** Shell metacharacters of the directory and of the command reach the
    shell unchanged. *)
Example execute_does_not_escape :
  log (snd (run (execute "echo $(id) && ls *" (λ _, SpawnFails))
              (__init__ "/tmp/a b; true")))
  = [Print "Executing cd /tmp/a b; true; echo $(id) && ls *";
     PopenShell "cd /tmp/a b; true; echo $(id) && ls *"].
Proof. reflexivity. Qed.

(** ** Further properties of the code *)

Lemma append_nil_r (b : string) : b +:+ "" = b.
Proof.
  induction b as [|c b IH]; [done|].
  change (String c (b +:+ "") = String c b). by rewrite IH.
Qed.

Lemma append_assoc (a b c : string) : (a +:+ b) +:+ c = a +:+ b +:+ c.
Proof.
  induction a as [|x a IH]; [done|].
  change (String x ((a +:+ b) +:+ c) = String x (a +:+ b +:+ c)). by rewrite IH.
Qed.

Lemma frame_refl s : frame s s.
Proof. split; try done. intros k b Hb. exists "". by rewrite append_nil_r. Qed.

Lemma frame_trans s1 s2 s3 : frame s1 s2 → frame s2 s3 → frame s1 s3.
Proof.
  intros [A1 A2 A3 A4 A5 A6] [B1 B2 B3 B4 B5 B6]. split.
  - congruence.
  - congruence.
  - by etrans.
  - by etrans.
  - by etrans.
  - intros k b Hb. destruct (A6 k b Hb) as [b1 H1].
    destruct (B6 k _ H1) as [b2 H2]. exists (b1 +:+ b2).
    by rewrite <- append_assoc.
Qed.

Lemma frame_out_state p d s : frame s (out_state p d s).
Proof.
  split; try done. intros k b Hb. unfold out_state, setdefault. simpl.
  destruct (decide (k = p)) as [->|Hne].
  - rewrite Hb, lookup_alter_eq, Hb. simpl. by exists d.
  - rewrite lookup_alter_ne by done. exists "".
    rewrite append_nil_r. destruct (data s !! p); [done|].
    by rewrite lookup_insert_ne.
Qed.

Lemma frame_shrink s s' :
  cwd s' = cwd s → fdtype s' = fdtype s → fds s' ⊆ fds s →
  processes s' ⊆ processes s → processgbprot s' ⊆ processgbprot s →
  data s' = data s → frame s s'.
Proof.
  intros ????? Hd. split; try done. intros k b Hb. exists "".
  by rewrite Hd, append_nil_r.
Qed.

Lemma handle_event_frame ev s l :
  frame s (self (snd (handle_event ev (World s l)))).
Proof.
  munfold. simpl.
  repeat case_match; simplify_eq/=; try apply frame_refl;
    try apply (frame_out_state (fds s !! ev_fd ev));
    apply frame_shrink; simpl; try done; apply delete_subseteq.
Qed.

Lemma for_each_frame evs s l :
  frame s (self (snd (for_each evs handle_event (World s l)))).
Proof.
  revert s l. induction evs as [|ev evs IH]; intros s l; [apply frame_refl|].
  simpl. unfold bind. pose proof (handle_event_frame ev s l) as F.
  destruct (handle_event ev (World s l)) as [[[]|e] [s1 l1]]; simpl in *; [|done].
  eapply frame_trans; [exact F|apply IH].
Qed.

Lemma comprehension_world {A} (xs : list A) (cond : A → M bool) w :
  (∀ x w0, snd (cond x w0) = w0) → snd (comprehension xs cond w) = w.
Proof.
  intros Hpure. induction xs as [|x xs IH]; [done|].
  simpl. unfold bind. specialize (Hpure x w).
  destruct (cond x w) as [[b|e] w1]; simpl in *; subst; [|done].
  destruct (comprehension xs cond w) as [[rest|e] w2]; simpl in *; by subst.
Qed.

Lemma watch_list_world w : snd (watch_list w) = w.
Proof.
  unfold watch_list, bind at 1, get_self.
  apply comprehension_world. intros x w0. unfold bind, getitem. simpl.
  by destruct (fdtype (self w) !! x).
Qed.

Lemma poll_round_self reply w : self (snd (poll_round reply w)) = self w.
Proof.
  unfold poll_round, bind at 1, emit at 1. unfold bind at 1.
  pose proof (watch_list_world (World (self w) (log w ++ [PollCreate]))) as Hw.
  destruct (watch_list _) as [[watched|e] w1]; simpl in *; subst; [|done].
  unfold bind at 1. rewrite for_each_emit. unfold bind, emit. simpl.
  by destruct reply.
Qed.

Lemma wait_frame replies w : frame (self w) (self (snd (wait replies w))).
Proof.
  revert w. induction replies as [|reply rest IH]; intros [s l];
    rewrite wait_eq; case_bool_decide; simpl; try apply frame_refl.
  pose proof (poll_round_self reply (World s l)) as Hp.
  destruct (poll_round reply (World s l)) as [[active|e] [s1 l1]];
    simpl in *; subst; [|apply frame_refl].
  pose proof (for_each_frame active s l1) as F.
  destruct (for_each active handle_event (World s l1)) as [[u|e] w2];
    simpl in *; [|done].
  eapply frame_trans; [exact F|apply IH].
Qed.

(** X1.  Whatever the manager and whatever the environment replies, and
    whether [wait()] returns, is still polling or raises: it leaves the
    working directory and the role table as they were, it adds no entry to
    the tracked set, to the stream table or to the endpoint registry and
    changes none that it keeps, and every buffer that existed still exists
    and has its old contents as a prefix. *)
Theorem wait_only_shrinks_tables_and_grows_buffers replies s :
  frame s (self (snd (run (wait replies) s))).
Proof. apply (wait_frame replies (World s [])). Qed.

(** X2.  A successful [execute] returns the identifier of the child and
    records it completely: the child is tracked with its three endpoints in
    the order input, output, error; each endpoint is registered under the
    identifier with its own role; the buffers and the directory are as before,
    and so is every entry of another process or of another endpoint.  The
    three descriptors have to differ, as those of three open pipes do:
    otherwise a later assignment of lines 82-89 overwrites an earlier one. *)
Theorem execute_records_the_child cmd os_spawn pid i o e s :
  os_spawn (fullcmd_of s cmd) = Spawned pid i o e → NoDup [i; o; e] →
  let s' := self (snd (run (execute cmd os_spawn) s)) in
  fst (run (execute cmd os_spawn) s) = Val pid ∧
  processes s' !! pid = Some [i; o; e] ∧
  processgbprot s' !! pid = Some [PyFile i; PyFile o; PyFile e] ∧
  (fds s' !! i = Some pid ∧ fds s' !! o = Some pid ∧ fds s' !! e = Some pid) ∧
  (fdtype s' !! i = Some FDIN ∧ fdtype s' !! o = Some FDOUT ∧
   fdtype s' !! e = Some FDERR) ∧
  data s' = data s ∧ cwd s' = cwd s ∧
  (∀ q, q ≠ pid → processes s' !! q = processes s !! q ∧
                  processgbprot s' !! q = processgbprot s !! q) ∧
  (∀ x, x ∉ [i; o; e] → fds s' !! x = fds s !! x ∧
                        fdtype s' !! x = fdtype s !! x).
Proof.
  intros Hsp Hnd s'. unfold s', run.
  rewrite (execute_spawned _ _ _ _ _ _ _ _ Hsp). simpl.
  apply NoDup_cons in Hnd as [Hi Hnd]. apply NoDup_cons in Hnd as [Ho _].
  assert (i ≠ o ∧ i ≠ e ∧ o ≠ e) as (Hio & Hie & Hoe) by set_solver.
  split_and!; try done; try by simplify_map_eq.
  - intros q Hq. by rewrite !lookup_insert_ne.
  - intros x Hx. rewrite !lookup_insert_ne by set_solver. done.
Qed.

Lemma execute_records_the_child_witness :
  let s' := self (snd (run (execute "who" (λ _, Spawned 101 8 9 11)) demo)) in
  NoDup [8; 9; 11] ∧
  processes s' !! 101 = Some [8; 9; 11] ∧
  fdtype s' !! 9 = Some FDOUT ∧
  processes s' !! 100 = Some [4; 5; 7] ∧ fds s' !! 5 = Some 100.
Proof.
  intros s'. subst s'.
  assert (NoDup [8; 9; 11]) as Hnd by nodup_concrete.
  destruct (execute_records_the_child "who" (λ _, Spawned 101 8 9 11)
              101 8 9 11 demo eq_refl Hnd)
    as (_ & H2 & _ & _ & (_ & H5 & _) & _ & _ & H8 & H9).
  split_and!; [done|exact H2|exact H5| |].
  - by rewrite (proj1 (H8 100 ltac:(done))).
  - rewrite (proj1 (H9 5 ltac:(set_solver))). reflexivity.
Defined.

(** X3.  The invariant [wf] holds of a fresh manager and is kept by every
    call of [execute], successful or not, whose spawn reply is what the
    operating system gives: a non-zero identifier that is not tracked and
    three distinct descriptors that no tracked process holds. *)
Theorem constructor_and_execute_keep_wf :
  (∀ d, wf (__init__ d)) ∧
  (∀ cmd os_spawn s,
     wf s → spawn_reply_ok s (os_spawn (fullcmd_of s cmd)) →
     wf (self (snd (run (execute cmd os_spawn) s)))).
Proof.
  split; [apply wf_init|].
  intros cmd os_spawn s W Hok. unfold run.
  destruct (os_spawn (fullcmd_of s cmd)) as [pid i o e|] eqn:Hsp.
  - rewrite (execute_spawned _ _ _ _ _ _ _ _ Hsp). by apply wf_spawned.
  - by rewrite (execute_fails _ _ _ _ Hsp).
Qed.

Lemma constructor_and_execute_keep_wf_witness :
  wf demo ∧ spawn_reply_ok demo (Spawned 101 8 9 11) ∧
  wf (self (snd (run (execute "who" (λ _, Spawned 101 8 9 11)) demo))).
Proof.
  assert (spawn_reply_ok demo (Spawned 101 8 9 11)) as Hok.
  { split_and!; [done|done|nodup_concrete|].
    intros p t x Hp Hx.
    destruct (decide (p = 100)) as [->|Hne].
    - injection Hp as <-. set_solver.
    - unfold demo, spawned_state in Hp. simpl in Hp.
      by rewrite lookup_insert_ne, lookup_empty in Hp. }
  split_and!; [apply demo_wf|exact Hok|].
  apply (proj2 constructor_and_execute_keep_wf "who"
           (λ _, Spawned 101 8 9 11) demo demo_wf Hok).
Defined.

(** X4.  On a well-formed manager, with poll replies that keep the contract
    of the readiness mechanism, [wait()] leaves a well-formed manager however
    it ends, and the only exceptions it can raise are the failure of a read
    ([OSError]) and the failure of the readiness mechanism ([IOError]): no
    dictionary or tuple access of the loop ever fails. *)
Theorem wait_keeps_wf_and_raises_only_environment_errors replies s :
  wf s → polls_ok replies s →
  wf (self (snd (run (wait replies) s))) ∧
  ∀ e, fst (run (wait replies) s) = Raise e → e = OSError ∨ e = IOError.
Proof.
  intros W Hok.
  destruct (wait_run replies s [] W Hok) as (r & s' & l' & E & W' & _ & _ & R).
  unfold run. rewrite E. simpl. split; [done|].
  intros e ->. destruct R as [[? _]|[[? _]|[[= ->]|[= ->]]]]; auto; done.
Qed.

Lemma wait_keeps_wf_and_raises_only_environment_errors_witness :
  wf demo ∧ polls_ok demo_replies demo ∧
  wf (self (snd (run (wait demo_replies) demo))).
Proof.
  split_and!; [apply demo_wf|apply demo_replies_ok|].
  apply (wait_keeps_wf_and_raises_only_environment_errors demo_replies demo
           demo_wf demo_replies_ok).
Defined.

(** X5.  On a well-formed manager, with poll replies that keep the
    contract, everything [wait()] asks of the environment concerns endpoints
    whose role is [FDOUT] or [FDERR]: it registers them for [READ] only, reads
    them with a bound of 4096 bytes, closes only them, and it never prints and
    never spawns. *)
Theorem wait_effects_concern_polled_endpoints replies s eff :
  wf s → polls_ok replies s →
  eff ∈ log (snd (run (wait replies) s)) →
  match eff with
  | PollCreate | PollWait => True
  | PollRegister f m => polled_fd s f ∧ m = READ
  | OsRead f n => polled_fd s f ∧ n = 4096
  | FileClose f => polled_fd s f
  | Print _ | PopenShell _ => False
  end.
Proof.
  intros W Hok Hin.
  destruct (wait_run replies s [] W Hok) as (r & s' & l' & E & _ & _ & F & _).
  unfold run in Hin. rewrite E in Hin. simpl in Hin.
  rewrite Forall_forall in F. apply (F eff Hin).
Qed.

Lemma wait_effects_concern_polled_endpoints_witness :
  wf demo ∧ polls_ok demo_replies demo ∧
  FileClose 7 ∈ log (snd (run (wait demo_replies) demo)) ∧ polled_fd demo 7.
Proof.
  assert (FileClose 7 ∈ log (snd (run (wait demo_replies) demo))) as Hin
    by (vm_compute; set_solver).
  split_and!; [apply demo_wf|apply demo_replies_ok|exact Hin|].
  apply (wait_effects_concern_polled_endpoints demo_replies demo (FileClose 7)
           demo_wf demo_replies_ok Hin).
Defined.

(** X6.  On a well-formed manager the list comprehension of line 96 does
    not raise, leaves the manager alone, and yields each registered endpoint
    whose role is [FDOUT] or [FDERR] exactly once: no endpoint is registered
    twice with the poll object of a round. *)
Theorem watch_list_is_the_registered_polled_endpoints s l :
  wf s →
  ∃ watched_fds,
    watch_list (World s l) = (Val watched_fds, World s l) ∧
    NoDup watched_fds ∧
    ∀ x, x ∈ watched_fds ↔
         is_Some (fds s !! x) ∧
         (fdtype s !! x = Some FDOUT ∨ fdtype s !! x = Some FDERR).
Proof.
  intros W. exists (watch_set s). split_and!.
  - by apply watch_list_eq.
  - apply NoDup_filter, NoDup_dict_keys.
  - intros x. rewrite elem_of_watch_set. unfold watched, polled_role, in_tuple.
    split.
    + intros [Hreg (ty & Hty & Hrole)]. split; [done|].
      apply bool_decide_eq_true in Hrole. rewrite Hty.
      apply elem_of_cons in Hrole as [->|Hrole]; [by left|].
      apply list_elem_of_singleton in Hrole as ->. by right.
    + intros [Hreg [Hty|Hty]]; (split; [done|]).
      * exists FDOUT. split; [done|]. apply bool_decide_eq_true. set_solver.
      * exists FDERR. split; [done|]. apply bool_decide_eq_true. set_solver.
Qed.

Lemma watch_list_is_the_registered_polled_endpoints_witness :
  wf demo ∧
  ∃ watched_fds,
    watch_list (World demo []) = (Val watched_fds, World demo []) ∧
    NoDup watched_fds ∧
    ∀ x, x ∈ watched_fds ↔
         is_Some (fds demo !! x) ∧
         (fdtype demo !! x = Some FDOUT ∨ fdtype demo !! x = Some FDERR).
Proof.
  split; [apply demo_wf|].
  apply (watch_list_is_the_registered_polled_endpoints demo [] demo_wf).
Defined.

(** X7.  Rounds in which the poll times out with nothing to report change
    nothing: on a well-formed manager that still tracks a process, any number
    of empty rounds costs the registrations and the poll of each round and
    leaves the loop where it was. *)
Theorem empty_rounds_change_nothing n replies s l :
  wf s → processes s ≠ ∅ →
  wait (replicate n (Active []) ++ replies) (World s l)
  = wait replies (World s (l ++ mjoin (replicate n (round_effects s)))).
Proof.
  intros W Hne. revert l. induction n as [|n IH]; intros l.
  - simpl. by rewrite app_nil_r.
  - change (replicate (S n) (Active []) ++ replies)
      with (Active [] :: (replicate n (Active []) ++ replies)).
    rewrite wait_eq, bool_decide_false by done.
    rewrite poll_round_eq by done. cbn [for_each]. unfold ret.
    rewrite IH. cbn [replicate mjoin list_join]. by rewrite <- app_assoc.
Qed.

Lemma empty_rounds_change_nothing_witness :
  wf demo ∧ processes demo ≠ ∅ ∧
  self (snd (wait (replicate 3 (Active []) ++ demo_replies) (World demo [])))
  = self (snd (wait demo_replies (World demo []))).
Proof.
  assert (processes demo ≠ ∅) as Hne.
  { intros Hempty. assert (processes demo !! 100 = None) as H
      by (by rewrite Hempty). done. }
  split_and!; [apply demo_wf|exact Hne|].
  rewrite (empty_rounds_change_nothing 3 demo_replies demo [] demo_wf Hne).
  by vm_compute.
Defined.

(** X8.  Whatever the manager, when [wait()] returns the tracked set is
    empty, and a further [wait()] then returns at once: it asks nothing of the
    environment and changes nothing, whatever the environment would reply. *)
Theorem wait_after_wait_is_a_no_op replies s w replies' :
  run (wait replies) s = (Val Returned, w) →
  processes (self w) = ∅ ∧ wait replies' w = (Val Returned, w).
Proof.
  intros H. apply wait_returned_empty in H as Hempty. split; [done|].
  destruct w as [s' l']. rewrite wait_eq. simpl in Hempty.
  by rewrite bool_decide_true.
Qed.

Lemma wait_after_wait_is_a_no_op_witness :
  fst (run (wait demo_replies) demo) = Val Returned ∧
  processes (self (snd (run (wait demo_replies) demo))) = ∅ ∧
  wait [PollFails] (snd (run (wait demo_replies) demo))
  = (Val Returned, snd (run (wait demo_replies) demo)).
Proof.
  split; [by vm_compute|].
  apply (wait_after_wait_is_a_no_op demo_replies demo
           (snd (run (wait demo_replies) demo)) [PollFails]).
  by vm_compute.
Defined.

Lemma collected_out_state p d s :
  collected (out_state p d s) p = collected s p +:+ d.
Proof.
  unfold collected, out_state, setdefault. simpl. rewrite lookup_alter_eq.
  destruct (data s !! p) as [b|] eqn:Hb; simpl.
  - by rewrite Hb.
  - by rewrite lookup_insert_eq.
Qed.

Lemma data_out_state_other p d s k :
  k ≠ p → data (out_state p d s) !! k = data s !! k.
Proof.
  intros Hk. unfold out_state, setdefault. simpl.
  rewrite lookup_alter_ne by done.
  destruct (data s !! p); [done|]. by rewrite lookup_insert_ne.
Qed.

(** X9.  A batch of data-ready events on endpoints registered for the same
    process appends what each read delivers, in the order of the batch, to the
    one buffer of that process (created on first use): the output and the
    error channel are merged, reads of one channel are reassembled.  The other
    buffers and every other table are untouched, and each event costs exactly
    one read. *)
Theorem data_events_append_in_order evs p s l :
  Forall (delivers_data s p) evs →
  ∃ s', for_each evs handle_event (World s l)
        = (Val tt, World s' (l ++ map (λ ev, OsRead (ev_fd ev) 4096) evs)) ∧
        collected s' p = collected s p +:+ payload evs ∧
        (∀ k, k ≠ p → data s' !! k = data s !! k) ∧
        set_data (λ _, data s) s' = s.
Proof.
  revert s l. induction evs as [|ev evs IH]; intros s l Hall.
  - exists s. simpl. rewrite app_nil_r. split_and!; try done.
    + by rewrite append_nil_r.
    + by destruct s.
  - apply Forall_cons in Hall as [(Hst & (d & Hrd & Hd) & Hp) Hall].
    assert (Forall (delivers_data (out_state p d s) p) evs) as Hall'
      by (eapply Forall_impl; [exact Hall|]; by intros ev' (? & ? & ?)).
    destruct (IH (out_state p d s) (l ++ [OsRead (ev_fd ev) 4096]) Hall')
      as (s' & E & Hc & Hother & Hrest).
    exists s'. split_and!.
    + cbn [for_each]. unfold bind at 1.
      rewrite (handle_event_data ev d s l Hst Hrd Hd), Hp, E.
      by rewrite <- app_assoc.
    + rewrite Hc, collected_out_state. cbn [payload]. rewrite Hrd.
      by rewrite append_assoc.
    + intros k Hk. rewrite Hother by done. by apply data_out_state_other.
    + destruct s, s'. unfold out_state, set_data in *. simpl in *.
      by simplify_eq.
Qed.

Lemma data_events_append_in_order_witness :
  Forall (delivers_data demo (Some 100))
    [Event 5 READ (ReadData "ab"); Event 7 READ (ReadData "!");
     Event 5 READ (ReadData "cd")] ∧
  ∃ s', for_each [Event 5 READ (ReadData "ab"); Event 7 READ (ReadData "!");
                  Event 5 READ (ReadData "cd")] handle_event (World demo [])
        = (Val tt, World s' [OsRead 5 4096; OsRead 7 4096; OsRead 5 4096]) ∧
        collected s' (Some 100) = "ab!cd".
Proof.
  assert (Forall (delivers_data demo (Some 100))
            [Event 5 READ (ReadData "ab"); Event 7 READ (ReadData "!");
             Event 5 READ (ReadData "cd")]) as Hall.
  { repeat (apply Forall_cons; split;
            [split_and!; [done|by eexists|done]|]). apply Forall_nil_2. }
  split; [exact Hall|].
  destruct (data_events_append_in_order _ (Some 100) demo [] Hall)
    as (s' & E & Hc & _).
  exists s'. split; [exact E|]. by rewrite Hc.
Defined.

Lemma eos_state_processgbprot f p s :
  processgbprot (eos_state f p s) = processgbprot s ∨
  processgbprot (eos_state f p s) = delete p (processgbprot s).
Proof. unfold eos_state. simpl. repeat case_match; auto. Qed.

(** X10.  Processes do not disturb each other: on a well-formed manager,
    whatever an event on an endpoint of one process does (append, deregister,
    retire, or a failing read), every other tracked process stays tracked with
    the same endpoints and stream objects, its endpoints keep their registry
    entries, and its buffer is untouched. *)
Theorem an_event_leaves_other_processes_alone ev s l p q t :
  wf s → watched s (ev_fd ev) → fds s !! ev_fd ev = Some p →
  q ≠ p → processes s !! q = Some t →
  let s' := self (snd (handle_event ev (World s l))) in
  processes s' !! q = Some t ∧
  processgbprot s' !! q = processgbprot s !! q ∧
  (∀ x, x ∈ t → fds s' !! x = fds s !! x) ∧
  data s' !! Some q = data s !! Some q.
Proof.
  intros W Hw Hp Hqp Hq s'. subst s'.
  destruct (handle_event_handled ev s l W Hw) as (r & s' & l' & E & H).
  rewrite E. simpl.
  assert (∀ x, x ∈ t → fds s' !! x = fds s !! x) as Hfds.
  { intros x Hx. apply (keeps_fds_other _ _ _ (handled_keeps _ _ _ _ _ H)).
    intros ->. apply Hqp. symmetry. by apply (wf_own s W q t (ev_fd ev) p). }
  assert (∀ p0, fds s !! ev_fd ev = Some p0 →
            processes (eos_state (ev_fd ev) p0 s) !! q = Some t ∧
            processgbprot (eos_state (ev_fd ev) p0 s) !! q
            = processgbprot s !! q) as Heos.
  { intros p0 Hp0. assert (p0 = p) as -> by congruence. split.
    - destruct (eos_state_processes (ev_fd ev) p s) as [-> | ->];
        [done|by rewrite lookup_delete_ne].
    - destruct (eos_state_processgbprot (ev_fd ev) p s) as [-> | ->];
        [done|by rewrite lookup_delete_ne]. }
  destruct H as [| d ? ? ? | p0 ? ? Hp0 | p0 ? ? Hp0 | p0 ? ? Hp0].
  - done.
  - split_and!; try done. rewrite Hp.
    apply data_out_state_other. congruence.
  - destruct (Heos p0 Hp0). by rewrite eos_state_data.
  - destruct (Heos p0 Hp0). by rewrite eos_state_data.
  - destruct (Heos p0 Hp0). by rewrite eos_state_data.
Qed.

Lemma demo_two_wf : wf demo_two.
Proof.
  apply wf_spawned; [apply demo_wf|].
  split_and!; [done|done|nodup_concrete|].
  intros p t x Hp Hx. destruct (decide (p = 100)) as [->|Hne].
  - injection Hp as <-. set_solver.
  - unfold demo, spawned_state in Hp. simpl in Hp.
    by rewrite lookup_insert_ne, lookup_empty in Hp.
Qed.

Lemma an_event_leaves_other_processes_alone_witness :
  let s' := self (snd (handle_event (Event 5 _EPOLLHUP (ReadData ""))
                         (World demo_two []))) in
  wf demo_two ∧ watched demo_two 5 ∧ fds demo_two !! 5 = Some 100 ∧
  processes s' !! 101 = Some [8; 9; 11] ∧
  (∀ x, x ∈ [8; 9; 11] → fds s' !! x = fds demo_two !! x) ∧
  data s' !! Some 101 = data demo_two !! Some 101.
Proof.
  intros s'. subst s'.
  assert (watched demo_two 5) as Hw.
  { split; [by eexists|]. exists FDOUT. split; [done|apply polled_role_FDOUT]. }
  destruct (an_event_leaves_other_processes_alone
              (Event 5 _EPOLLHUP (ReadData "")) demo_two [] 100 101 [8; 9; 11]
              demo_two_wf Hw eq_refl ltac:(done) eq_refl)
    as (H1 & _ & H3 & H4).
  split_and!; [apply demo_two_wf|exact Hw|done|exact H1|exact H3|exact H4].
Defined.

(** X11.  An event for an endpoint that is not in the registry: if it is
    data-ready with bytes to read, the bytes are read and filed in a buffer
    under the key [None], and nothing is raised; if it is an end of stream (a
    read of no bytes, or any state other than [READ]), the dictionary access
    fails with [KeyError] and the manager is left as it was. *)
Theorem event_on_unregistered_endpoint ev s l :
  fds s !! ev_fd ev = None →
  (∀ d, ev_state ev = READ → ev_read ev = ReadData d → d ≠ "" →
     handle_event ev (World s l)
     = (Val tt, World (out_state None d s) (l ++ [OsRead (ev_fd ev) 4096])) ∧
     collected (out_state None d s) None = collected s None +:+ d) ∧
  (ends_stream ev →
     fst (handle_event ev (World s l)) = Raise KeyError ∧
     self (snd (handle_event ev (World s l))) = s).
Proof.
  intros Hfd. split.
  - intros d Hst Hrd Hd. split; [|apply collected_out_state].
    by rewrite (handle_event_data ev d s l Hst Hrd Hd), Hfd.
  - intros [[Hst Hrd]|Hst].
    + munfold. simpl. rewrite Hst, Hrd. simpl. by rewrite Hfd.
    + apply Z.eqb_neq in Hst. munfold. simpl. rewrite Hst, Hfd. simpl.
      destruct (in_tuple _ _); simpl; by rewrite ?Hfd.
Qed.

Lemma event_on_unregistered_endpoint_witness :
  fds demo !! 6 = None ∧ ends_stream (Event 6 _EPOLLHUP (ReadData "")) ∧
  fst (handle_event (Event 6 _EPOLLHUP (ReadData "")) (World demo []))
  = Raise KeyError ∧
  collected (self (snd (handle_event (Event 6 READ (ReadData "x"))
                          (World demo [])))) None = "x".
Proof.
  assert (ends_stream (Event 6 _EPOLLHUP (ReadData ""))) as Hend
    by (right; by vm_compute).
  destruct (event_on_unregistered_endpoint (Event 6 _EPOLLHUP (ReadData ""))
              demo [] eq_refl) as [_ H2].
  destruct (event_on_unregistered_endpoint (Event 6 READ (ReadData "x"))
              demo [] eq_refl) as [H1 _].
  destruct (H1 "x" eq_refl eq_refl ltac:(done)) as [E Hc].
  split_and!; [done|exact Hend|exact (proj1 (H2 Hend))|].
  rewrite E. cbn [snd self]. by rewrite Hc.
Defined.

Lemma for_each_app {A} (xs ys : list A) (body : A → M unit) w :
  for_each (xs ++ ys) body w
  = match for_each xs body w with
    | (Val _, w1) => for_each ys body w1
    | (Raise e, w1) => (Raise e, w1)
    end.
Proof.
  revert w. induction xs as [|x xs IH]; intros w; [done|].
  simpl. unfold bind. destruct (body x w) as [[[]|e] w1]; [apply IH|done].
Qed.

(** X12.  A failing read aborts [wait()] with [OSError] in the middle of a
    batch: the events before it have been handled, the failing endpoint is
    neither deregistered nor closed, and the events after it and the later
    rounds are never looked at. *)
Theorem read_failure_aborts_the_batch before ev after rest s w1 :
  wf s → processes s ≠ ∅ →
  ev_state ev = READ → ev_read ev = ReadFails →
  for_each before handle_event (World s (round_effects s)) = (Val tt, w1) →
  run (wait (Active (before ++ ev :: after) :: rest)) s
  = (Raise OSError, World (self w1) (log w1 ++ [OsRead (ev_fd ev) 4096])).
Proof.
  intros W Hne Hst Hrd Hbefore. unfold run.
  rewrite wait_eq, bool_decide_false by done.
  rewrite poll_round_eq by done.
  change ([] ++ round_effects s) with (round_effects s).
  rewrite for_each_app, Hbefore. cbn [for_each]. unfold bind.
  destruct w1 as [s1 l1]. by rewrite (handle_event_read_fails ev s1 l1 Hst Hrd).
Qed.

Lemma read_failure_aborts_the_batch_witness :
  wf demo ∧ processes demo ≠ ∅ ∧
  fst (run (wait [Active ([Event 5 READ (ReadData "out")] ++
                          Event 7 READ ReadFails :: [Event 5 READ (ReadData "")]);
                  Active []]) demo) = Raise OSError ∧
  fds (self (snd (run (wait [Active ([Event 5 READ (ReadData "out")] ++
                          Event 7 READ ReadFails :: [Event 5 READ (ReadData "")]);
                  Active []]) demo))) !! 7 = Some 100.
Proof.
  assert (processes demo ≠ ∅) as Hne.
  { intros Hempty. assert (processes demo !! 100 = None) as H
      by (by rewrite Hempty). done. }
  pose (w1 := snd (for_each [Event 5 READ (ReadData "out")] handle_event
                     (World demo (round_effects demo)))).
  assert (for_each [Event 5 READ (ReadData "out")] handle_event
            (World demo (round_effects demo)) = (Val tt, w1)) as Hbefore
    by reflexivity.
  split_and!; [apply demo_wf|exact Hne|..];
    rewrite (read_failure_aborts_the_batch [Event 5 READ (ReadData "out")]
               (Event 7 READ ReadFails) [Event 5 READ (ReadData "")] [Active []]
               demo w1 demo_wf Hne eq_refl eq_refl Hbefore);
    reflexivity.
Defined.

Lemma handle_event_ends ev s l :
  wf s → watched s (ev_fd ev) → ends_stream ev →
  ∃ p l', fds s !! ev_fd ev = Some p ∧
    handle_event ev (World s l)
    = (Val tt, World (eos_state (ev_fd ev) p s) (l ++ l')).
Proof.
  intros W Hw Hend.
  destruct (handle_event_handled ev s l W Hw) as (r & s' & l' & E & H).
  destruct H as [Hst Hrd | d Hst Hrd Hd | p ? ? Hp | p ? ? Hp | p ? ? Hp].
  - destruct Hend as [[_ Hrd']|Hst']; congruence.
  - destruct Hend as [[_ Hrd']|Hst']; congruence.
  - eexists p, _. split; [done|exact E].
  - eexists p, _. split; [done|exact E].
  - eexists p, _. split; [done|exact E].
Qed.

Section TwoEnds.
Variables (s : TaskManager) (p i o e : Z).
Hypothesis W : wf s.
Hypothesis Hp : processes s !! p = Some [i; o; e].

Lemma eos_state_first f g :
  f = o ∧ g = e ∨ f = e ∧ g = o → is_Some (fds s !! g) →
  eos_state f p s = set_fds (delete f) s.
Proof.
  intros Hfg [q Hq].
  destruct (wf_triple s W p _ Hp)
    as (i' & o' & e' & [= <- <- <-] & Hio & Hie & Hoe & Hi & _).
  assert (p ≠ 0) as Hp0 by (by eapply (wf_pid s W)).
  assert (q ≠ 0) as Hq0 by (by eapply (wf_pid s W)).
  apply Z.eqb_neq in Hp0, Hq0.
  unfold eos_state. simpl. rewrite Hp, count3.
  destruct Hfg as [[-> ->]|[-> ->]].
  - rewrite lookup_delete_eq, !lookup_delete_ne, Hi, Hq by done.
    simpl. by rewrite Hp0, Hq0.
  - rewrite lookup_delete_eq, !lookup_delete_ne, Hi, Hq by done.
    simpl. by rewrite Hp0, Hq0.
Qed.

Lemma eos_state_last f g :
  f = o ∧ g = e ∨ f = e ∧ g = o → fds s !! g = None →
  eos_state f p s
  = set_processgbprot (delete p) (set_processes (delete p) (set_fds (delete f) s)).
Proof.
  intros Hfg Hg.
  destruct (wf_triple s W p _ Hp)
    as (i' & o' & e' & [= <- <- <-] & Hio & Hie & Hoe & Hi & _).
  assert (p ≠ 0) as Hp0 by (by eapply (wf_pid s W)).
  apply Z.eqb_neq in Hp0.
  unfold eos_state. simpl. rewrite Hp, count3.
  destruct Hfg as [[-> ->]|[-> ->]].
  - rewrite lookup_delete_eq, !lookup_delete_ne, Hi, Hg by done.
    simpl. by rewrite Hp0.
  - rewrite lookup_delete_eq, !lookup_delete_ne, Hi, Hg by done.
    simpl. by rewrite Hp0.
Qed.

Lemma endpoint_watched f :
  f = o ∨ f = e → is_Some (fds s !! f) → watched s f ∧ fds s !! f = Some p.
Proof.
  intros Hf [q Hq].
  destruct (wf_triple s W p _ Hp)
    as (i' & o' & e' & [= <- <- <-] & _ & _ & _ & _ & _ & _ & Hto & Hte).
  assert (q = p) as -> by (apply (wf_own s W p [i; o; e] f q Hp); set_solver).
  split; [|done]. split; [by eexists|].
  destruct Hf as [-> | ->];
    [exists FDOUT|exists FDERR]; (split; [done|by vm_compute]).
Qed.

Lemma two_ends f g a b l :
  f = o ∧ g = e ∨ f = e ∧ g = o →
  is_Some (fds s !! o) → is_Some (fds s !! e) →
  ev_fd a = f → ev_fd b = g → ends_stream a → ends_stream b →
  ∃ l', for_each [a; b] handle_event (World s l)
        = (Val tt, World (retired_state p f g s) (l ++ l')).
Proof.
  intros Hfg Ho He Ha Hb Hea Heb.
  destruct (wf_triple s W p _ Hp)
    as (i' & o' & e' & [= <- <- <-] & Hio & Hie & Hoe & _).
  assert (f ≠ g ∧ (f = o ∨ f = e) ∧ (g = o ∨ g = e) ∧
          is_Some (fds s !! f) ∧ is_Some (fds s !! g)) as (Hne & Hf & Hg & Hrf & Hrg).
  { destruct Hfg as [[-> ->]|[-> ->]]; split_and!; auto. }
  destruct (endpoint_watched f Hf Hrf) as [Hwf Hpf].
  subst f g.
  destruct (handle_event_ends a s l W Hwf Hea) as (p1 & l1 & Hp1 & E1).
  assert (p1 = p) as -> by congruence.
  rewrite (eos_state_first (ev_fd a) (ev_fd b) Hfg Hrg) in E1.
  set (s1 := set_fds (delete (ev_fd a)) s) in *.
  assert (wf s1) as W1.
  { unfold s1. rewrite <- (eos_state_first (ev_fd a) (ev_fd b) Hfg Hrg).
    by apply wf_eos_state. }
  assert (watched s1 (ev_fd b)) as Hwb.
  { destruct (endpoint_watched (ev_fd b) Hg Hrg) as [[Hreg Hrole] _].
    split; [|done]. unfold s1. simpl. by rewrite lookup_delete_ne. }
  destruct (handle_event_ends b s1 (l ++ l1) W1 Hwb Heb) as (p2 & l2 & Hp2 & E2).
  assert (p2 = p) as ->.
  { unfold s1 in Hp2. simpl in Hp2. rewrite lookup_delete_ne in Hp2 by done.
    destruct (endpoint_watched (ev_fd b) Hg Hrg) as [_ Hpb]. congruence. }
  exists (l1 ++ l2). cbn [for_each]. unfold bind, ret. rewrite E1, E2.
  rewrite app_assoc. do 2 f_equal.
  unfold eos_state, retired_state, s1. simpl. rewrite Hp, count3.
  assert (i ≠ ev_fd a ∧ i ≠ ev_fd b) as [Hia Hib]
    by (destruct Hfg as [[-> ->]|[-> ->]]; done).
  destruct (wf_triple s W p _ Hp) as (? & ? & ? & [= <- <- <-] & _ & _ & _ & Hi & _).
  assert (p ≠ 0) as Hp0 by (by eapply (wf_pid s W)).
  apply Z.eqb_neq in Hp0.
  destruct Hfg as [[Hao Hbe]|[Hae Hbo]].
  - rewrite <- Hao, <- Hbe.
    rewrite lookup_delete_eq, (lookup_delete_ne _ (ev_fd b) (ev_fd a)) by done.
    rewrite lookup_delete_eq, !lookup_delete_ne, Hi by done.
    simpl. by rewrite Hp0.
  - rewrite <- Hae, <- Hbo.
    rewrite lookup_delete_eq, (lookup_delete_ne _ (ev_fd b) (ev_fd a)) by done.
    rewrite lookup_delete_eq, !lookup_delete_ne, Hi by done.
    simpl. by rewrite Hp0.
Qed.
End TwoEnds.

Lemma retired_state_commute p o e s :
  retired_state p o e s = retired_state p e o s.
Proof. unfold retired_state, set_fds. simpl. by rewrite delete_delete. Qed.

(** X13.  Retirement does not depend on which of the two streams ends
    first: for a tracked process whose output and error endpoints are both
    registered, handling an end of stream on each, in either order, raises
    nothing and leads to the same manager, in which the two endpoints are out
    of the registry, the process is out of the tracked set and of the stream
    table, and roles, buffers and directory are as before. *)
Theorem both_ends_retire_in_either_order s p i o e a b l :
  wf s → processes s !! p = Some [i; o; e] →
  is_Some (fds s !! o) → is_Some (fds s !! e) →
  ev_fd a = o → ev_fd b = e → ends_stream a → ends_stream b →
  fst (for_each [a; b] handle_event (World s l)) = Val tt ∧
  fst (for_each [b; a] handle_event (World s l)) = Val tt ∧
  self (snd (for_each [a; b] handle_event (World s l))) = retired_state p o e s ∧
  self (snd (for_each [b; a] handle_event (World s l))) = retired_state p o e s.
Proof.
  intros W Hp Ho He Ha Hb Hea Heb.
  destruct (two_ends s p i o e W Hp o e a b l) as [l1 E1]; auto.
  destruct (two_ends s p i o e W Hp e o b a l) as [l2 E2]; auto.
  rewrite E1, E2. simpl. split_and!; try done. apply retired_state_commute.
Qed.

Lemma both_ends_retire_in_either_order_witness :
  wf demo ∧ processes demo !! 100 = Some [4; 5; 7] ∧
  self (snd (for_each [Event 5 READ (ReadData ""); Event 7 _EPOLLHUP (ReadData "")]
               handle_event (World demo [])))
  = self (snd (for_each [Event 7 _EPOLLHUP (ReadData ""); Event 5 READ (ReadData "")]
               handle_event (World demo []))).
Proof.
  destruct (both_ends_retire_in_either_order demo 100 4 5 7
              (Event 5 READ (ReadData "")) (Event 7 _EPOLLHUP (ReadData "")) []
              demo_wf eq_refl)
    as (_ & _ & H1 & H2);
    [by eexists|by eexists|done|done|by left|right; by vm_compute|].
  split_and!; [apply demo_wf|done|]. by rewrite H1, H2.
Defined.

Lemma data_round_run f d p rest s l :
  wf s → processes s ≠ ∅ → fds s !! f = Some p → d ≠ "" →
  wait (Active [Event f READ (ReadData d)] :: rest) (World s l)
  = wait rest (World (out_state (Some p) d s)
                 ((l ++ round_effects s) ++ [OsRead f 4096])).
Proof.
  intros W Hne Hf Hd. rewrite wait_eq, bool_decide_false by done.
  rewrite poll_round_eq by done. cbn [for_each]. unfold bind, ret.
  rewrite (handle_event_data (Event f READ (ReadData d)) d s _ eq_refl eq_refl Hd).
  simpl. by rewrite Hf.
Qed.

Lemma data_rounds_run p chunks rest s l :
  wf s → processes s ≠ ∅ →
  Forall (λ c, fds s !! c.1 = Some p ∧ c.2 ≠ "") chunks →
  ∃ s' l', wait (data_rounds chunks ++ rest) (World s l) = wait rest (World s' l') ∧
    wf s' ∧ set_data (λ _, data s) s' = s ∧
    collected s' (Some p) = collected s (Some p) +:+ chunks_text chunks ∧
    ∀ k, k ≠ Some p → data s' !! k = data s !! k.
Proof.
  revert s l. induction chunks as [|[f d] chunks IH]; intros s l W Hne Hall.
  - exists s, l. split_and!; try done.
    + by destruct s.
    + by rewrite append_nil_r.
  - apply Forall_cons in Hall as [[Hf Hd] Hall]. simpl in Hf, Hd.
    destruct (IH (out_state (Some p) d s)
                ((l ++ round_effects s) ++ [OsRead f 4096]))
      as (s' & l' & E & W' & Hrest & Hc & Hother);
      [by apply wf_out_state|done|done|].
    exists s', l'. split_and!.
    + cbn [data_rounds map app]. cbn [fst snd].
      rewrite (data_round_run f d p _ s l W Hne Hf Hd). exact E.
    + done.
    + destruct s, s'. unfold out_state, set_data in *. simpl in *.
      by simplify_eq.
    + rewrite Hc, collected_out_state. cbn [chunks_text snd].
      by rewrite append_assoc.
    + intros k Hk. rewrite Hother by done.
      by apply data_out_state_other.
Qed.

(** X14.  The whole loop on one process whose channels are reported with
    the states the dispatch knows: rounds that each deliver one chunk from its
    output or its error endpoint, then a round in which both endpoints end.
    [wait()] returns, the later replies are never consulted, and the buffer of
    the process has grown by exactly the chunks, in the order in which they
    were delivered; no other buffer has changed. *)
Theorem sole_process_output_is_collected s p i o e chunks a b rest :
  wf s → processes s = {[p := [i; o; e]]} →
  is_Some (fds s !! o) → is_Some (fds s !! e) →
  Forall (λ c, (c.1 = o ∨ c.1 = e) ∧ c.2 ≠ "") chunks →
  ev_fd a = o → ev_fd b = e → ends_stream a → ends_stream b →
  let out := run (wait (data_rounds chunks ++ Active [a; b] :: rest)) s in
  fst out = Val Returned ∧
  collected (self (snd out)) (Some p)
  = collected s (Some p) +:+ chunks_text chunks ∧
  ∀ k, k ≠ Some p → data (self (snd out)) !! k = data s !! k.
Proof.
  intros W Hsole Ho He Hchunks Ha Hb Hea Heb out. subst out. unfold run.
  assert (processes s !! p = Some [i; o; e]) as Hp
    by (by rewrite Hsole, lookup_singleton_eq).
  assert (processes s ≠ ∅) as Hne.
  { intros Hempty. by rewrite Hempty in Hp. }
  assert (Forall (λ c : Z * string, fds s !! c.1 = Some p ∧ c.2 ≠ "") chunks)
    as Hchunks'.
  { eapply Forall_impl; [exact Hchunks|]. intros [f d] [Hf Hd]. simpl in *.
    split; [|done].
    destruct Hf as [-> | ->].
    - by destruct (endpoint_watched s p i o e W Hp o (or_introl eq_refl) Ho).
    - by destruct (endpoint_watched s p i o e W Hp e (or_intror eq_refl) He). }
  destruct (data_rounds_run p chunks (Active [a; b] :: rest) s [] W Hne Hchunks')
    as (s' & l' & E & W' & Hrest & Hc & Hother).
  rewrite E.
  assert (processes s' = processes s ∧ fds s' = fds s) as [Hps Hfs].
  { rewrite <- Hrest. by destruct s'. }
  rewrite wait_eq, bool_decide_false by (by rewrite Hps).
  rewrite poll_round_eq by done.
  destruct (two_ends s' p i o e W' ltac:(by rewrite Hps) o e a b
              (l' ++ round_effects s')) as [l2 E2]; auto;
    try by rewrite Hfs.
  rewrite E2, wait_eq, bool_decide_true.
  - simpl. split_and!; done.
  - simpl. rewrite Hps, Hsole. apply delete_singleton_eq.
Qed.

Lemma sole_process_output_is_collected_witness :
  let out := run (wait (data_rounds [(5, "ab"); (7, "!"); (5, "cd")] ++
                        Active [Event 5 READ (ReadData "");
                                Event 7 (Z.lor _EPOLLERR _EPOLLHUP) (ReadData "")]
                        :: [PollFails])) demo in
  wf demo ∧ processes demo = {[100 := [4; 5; 7]]} ∧
  fst out = Val Returned ∧ collected (self (snd out)) (Some 100) = "ab!cd".
Proof.
  intros out. subst out.
  destruct (sole_process_output_is_collected demo 100 4 5 7
              [(5, "ab"); (7, "!"); (5, "cd")]
              (Event 5 READ (ReadData ""))
              (Event 7 (Z.lor _EPOLLERR _EPOLLHUP) (ReadData "")) [PollFails]
              demo_wf)
    as (H1 & H2 & _).
  - by vm_compute.
  - by eexists.
  - by eexists.
  - repeat (apply Forall_cons; split; [split; [auto|done]|]). apply Forall_nil_2.
  - done.
  - done.
  - by left.
  - right. by vm_compute.
  - split_and!; [apply demo_wf|by vm_compute|exact H1|by rewrite H2].
Defined.

Lemma keys_from_refl s : keys_from s s.
Proof. intros k Hk. by left. Qed.

Lemma keys_from_trans s1 s2 s3 :
  processes s2 ⊆ processes s1 →
  keys_from s1 s2 → keys_from s2 s3 → keys_from s1 s3.
Proof.
  intros Hsub H12 H23 k Hk. destruct (H23 k Hk) as [Hk2|(p & -> & [t Hp])].
  - by apply H12.
  - right. exists p. split; [done|]. exists t. by eapply lookup_weaken.
Qed.

Lemma handled_keys_from ev s r s' l' :
  wf s → watched s (ev_fd ev) → handled ev s r s' l' → keys_from s s'.
Proof.
  intros W Hw H k Hk.
  destruct H; try (rewrite eos_state_data in Hk); try by left.
  destruct (watched_owner s _ W Hw) as (p & i & o & e & Hp & Ht & _).
  rewrite Hp in Hk. destruct (decide (k = Some p)) as [->|Hne].
  - right. exists p. split; [done|]. by eexists.
  - left. by rewrite data_out_state_other in Hk.
Qed.

Lemma events_ok_step ev evs s s1 l1 :
  events_ok s (ev :: evs) → handled ev s (Val tt) s1 l1 → events_ok s1 evs.
Proof.
  intros [Hnd Hall] H.
  apply NoDup_cons in Hnd as [Hfresh Hnd].
  apply Forall_cons in Hall as [Hw Hall].
  destruct (handled_keeps _ _ _ _ _ H) as [_ Hty Hother _ _].
  split; [done|]. apply Forall_forall. intros ev' Hev'.
  rewrite Forall_forall in Hall. destruct (Hall ev' Hev') as [Hreg Hrole].
  split.
  - rewrite Hother; [done|]. intros Heq. apply Hfresh. rewrite <- Heq.
    apply list_elem_of_fmap. eauto.
  - by rewrite Hty.
Qed.

Lemma for_each_keys_from evs s l :
  wf s → events_ok s evs →
  keys_from s (self (snd (for_each evs handle_event (World s l)))).
Proof.
  revert s l. induction evs as [|ev evs IH]; intros s l W Hok;
    [apply keys_from_refl|].
  assert (watched s (ev_fd ev)) as Hw
    by (destruct Hok as [_ Hall]; by apply Forall_cons in Hall as [? _]).
  destruct (handle_event_handled ev s l W Hw) as (r1 & s1 & l1 & E1 & H1).
  cbn [for_each]. unfold bind at 1. rewrite E1.
  pose proof (handled_keys_from _ _ _ _ _ W Hw H1) as K1.
  destruct (handled_result _ _ _ _ _ H1) as [-> | [-> ->]]; [|done].
  eapply keys_from_trans; [|exact K1|].
  - apply (keeps_processes_sub _ _ _ (handled_keeps _ _ _ _ _ H1)).
  - apply IH; [by eapply handled_wf|by eapply events_ok_step].
Qed.

Lemma wait_keys_from replies s l :
  wf s → polls_ok replies s →
  keys_from s (self (snd (wait replies (World s l)))).
Proof.
  revert s l. induction replies as [|reply rest IH]; intros s l W Hok;
    rewrite wait_eq; case_bool_decide as Hempty; try apply keys_from_refl.
  rewrite poll_round_eq by done.
  destruct Hok as [Hok|Hok]; [done|].
  destruct reply as [evs|]; [|apply keys_from_refl].
  destruct Hok as [Hev Hnext].
  destruct (for_each_batch evs s (l ++ round_effects s) W Hev)
    as (r1 & s1 & l1 & E1 & W1 & V1 & _ & R1).
  pose proof (for_each_keys_from evs s (l ++ round_effects s) W Hev) as K1.
  rewrite E1 in K1 |- *. simpl in K1.
  destruct R1 as [-> | ->]; [|done].
  eapply keys_from_trans; [apply (evolves_processes _ _ V1)|exact K1|].
  apply IH; [done|]. by apply (Hnext _ _ E1).
Qed.

(** X15.  On a well-formed manager, with poll replies that keep the
    contract, the buffers [wait()] leaves are keyed by the identifiers of
    processes: every buffer either existed before or belongs to a process that
    was tracked when [wait()] started. *)
Theorem buffers_belong_to_tracked_processes replies s k :
  wf s → polls_ok replies s →
  is_Some (data (self (snd (run (wait replies) s))) !! k) →
  is_Some (data s !! k) ∨ ∃ p, k = Some p ∧ is_Some (processes s !! p).
Proof. intros W Hok. by apply wait_keys_from. Qed.

Lemma buffers_belong_to_tracked_processes_witness :
  wf demo ∧ polls_ok demo_replies demo ∧
  is_Some (data (self (snd (run (wait demo_replies) demo))) !! Some 100) ∧
  (is_Some (data demo !! Some 100) ∨
   ∃ p, Some 100 = Some p ∧ is_Some (processes demo !! p)).
Proof.
  assert (is_Some (data (self (snd (run (wait demo_replies) demo))) !! Some 100))
    as Hk by (by eexists).
  split_and!; [apply demo_wf|apply demo_replies_ok|exact Hk|].
  apply (buffers_belong_to_tracked_processes demo_replies demo (Some 100)
           demo_wf demo_replies_ok Hk).
Defined.

(** X16.  A process is not retired while one of its two streams is still
    open: when its output and error endpoints are both registered and one of
    them ends, that endpoint leaves the registry, the process stays tracked
    with its tuple and its stream objects, and the other endpoint is still
    selected by the list of line 96. *)
Theorem first_end_keeps_the_process_tracked s p i o e f g ev l :
  wf s → processes s !! p = Some [i; o; e] →
  f = o ∧ g = e ∨ f = e ∧ g = o →
  is_Some (fds s !! f) → is_Some (fds s !! g) →
  ev_fd ev = f → ends_stream ev →
  let s' := self (snd (handle_event ev (World s l))) in
  fst (handle_event ev (World s l)) = Val tt ∧
  fds s' !! f = None ∧
  processes s' !! p = Some [i; o; e] ∧
  processgbprot s' !! p = processgbprot s !! p ∧
  watched s' g ∧ g ∈ watch_set s'.
Proof.
  intros W Hp Hfg Hf Hg Hev Hend s'. subst s'.
  assert ((f = o ∨ f = e) ∧ (g = o ∨ g = e) ∧ f ≠ g) as (Hf' & Hg' & Hne).
  { destruct (wf_triple s W p _ Hp)
      as (? & ? & ? & [= <- <- <-] & _ & _ & Hoe & _).
    destruct Hfg as [[-> ->]|[-> ->]]; split_and!; auto. }
  destruct (endpoint_watched s p i o e W Hp f Hf' Hf) as [Hwf Hpf].
  destruct (endpoint_watched s p i o e W Hp g Hg' Hg) as [[_ Hrole] _].
  subst f.
  destruct (handle_event_ends ev s l W Hwf Hend) as (p1 & l1 & Hp1 & E).
  assert (p1 = p) as -> by congruence.
  rewrite (eos_state_first s p i o e W Hp (ev_fd ev) g Hfg Hg) in E.
  rewrite E. simpl.
  assert (watched (set_fds (delete (ev_fd ev)) s) g) as Hwg
    by (split; [simpl; by rewrite lookup_delete_ne|done]).
  split_and!; try done.
  - apply lookup_delete_eq.
  - by apply elem_of_watch_set.
Qed.

Lemma first_end_keeps_the_process_tracked_witness :
  let s' := self (snd (handle_event (Event 7 _EPOLLHUP (ReadData ""))
                         (World demo []))) in
  wf demo ∧ processes demo !! 100 = Some [4; 5; 7] ∧
  fds s' !! 7 = None ∧ processes s' !! 100 = Some [4; 5; 7] ∧ 5 ∈ watch_set s'.
Proof.
  intros s'. subst s'.
  destruct (first_end_keeps_the_process_tracked demo 100 4 5 7 7 5
              (Event 7 _EPOLLHUP (ReadData "")) [] demo_wf eq_refl)
    as (_ & H2 & H3 & _ & _ & H6);
    [by right|by eexists|by eexists|done|right; by vm_compute|].
  split_and!; [apply demo_wf|done|exact H2|exact H3|exact H6].
Defined.

Lemma wf_set_data f s : wf s → wf (set_data f s).
Proof. intros [W1 W2 W3 W4 W5 W6]. by split. Qed.

Lemma only_data_trans s1 s2 s3 :
  set_data (λ _, data s1) s2 = s1 → set_data (λ _, data s2) s3 = s2 →
  set_data (λ _, data s1) s3 = s1.
Proof.
  destruct s1, s2, s3. unfold set_data. simpl. intros ??. by simplify_eq.
Qed.

Lemma only_data_wf s s' : set_data (λ _, data s) s' = s → wf s → wf s'.
Proof.
  intros Hs W. assert (s' = set_data (λ _, data s') s) as ->.
  { destruct s, s'. unfold set_data in *. simpl in *. by simplify_eq. }
  by apply wf_set_data.
Qed.

Lemma data_batch_run evs s l :
  Forall has_data evs →
  ∃ s' l', for_each evs handle_event (World s l) = (Val tt, World s' l') ∧
           set_data (λ _, data s) s' = s.
Proof.
  revert s l. induction evs as [|ev evs IH]; intros s l Hall.
  - exists s, l. split; [done|]. by destruct s.
  - apply Forall_cons in Hall as [(Hst & d & Hrd & Hd) Hall].
    destruct (IH (out_state (fds s !! ev_fd ev) d s)
                (l ++ [OsRead (ev_fd ev) 4096]) Hall) as (s' & l' & E & Hs').
    exists s', l'. split.
    + cbn [for_each]. unfold bind at 1.
      by rewrite (handle_event_data ev d s l Hst Hrd Hd).
    + eapply only_data_trans; [|exact Hs']. by destruct s.
Qed.

(** X17.  [wait()] does not return before a stream ends: on a well-formed
    manager that tracks a process, as long as the rounds report nothing but
    data (or nothing at all), the loop is still polling after every one of
    them, and nothing but the buffers has changed. *)
Theorem no_end_of_stream_no_return replies s :
  wf s → processes s ≠ ∅ → Forall data_only replies →
  fst (run (wait replies) s) = Val Polling ∧
  set_data (λ _, data s) (self (snd (run (wait replies) s))) = s.
Proof.
  unfold run. generalize (@nil effect) as l. intros l W Hne Hall.
  revert s l W Hne. induction Hall as [|reply replies Hr Hall IH];
    intros s l W Hne; rewrite wait_eq, bool_decide_false by done.
  - split; [done|]. by destruct s.
  - rewrite poll_round_eq by done. destruct reply as [evs|]; [|done].
    destruct (data_batch_run evs s (l ++ round_effects s) Hr)
      as (s' & l' & E & Hs').
    rewrite E.
    assert (wf s') as W' by (by eapply only_data_wf).
    assert (processes s' ≠ ∅) as Hne'.
    { rewrite <- Hs' in Hne. by destruct s'. }
    destruct (IH s' l' W' Hne') as [H1 H2]. split; [done|].
    by eapply only_data_trans.
Qed.

Lemma no_end_of_stream_no_return_witness :
  let replies := [Active [Event 5 READ (ReadData "ab")]; Active [];
                  Active [Event 7 READ (ReadData "!"); Event 5 READ (ReadData "cd")]] in
  wf demo ∧ processes demo ≠ ∅ ∧ Forall data_only replies ∧
  fst (run (wait replies) demo) = Val Polling.
Proof.
  intros replies. subst replies.
  assert (processes demo ≠ ∅) as Hne.
  { intros Hempty. assert (processes demo !! 100 = None) as H
      by (by rewrite Hempty). done. }
  assert (Forall data_only
            [Active [Event 5 READ (ReadData "ab")]; Active [];
             Active [Event 7 READ (ReadData "!"); Event 5 READ (ReadData "cd")]])
    as Hall.
  { repeat (apply Forall_cons; split;
            [simpl; repeat (apply Forall_cons; split;
                            [split; [done|by eexists]|]); apply Forall_nil_2|]).
    apply Forall_nil_2. }
  split_and!; [apply demo_wf|exact Hne|exact Hall|].
  apply (no_end_of_stream_no_return _ demo demo_wf Hne Hall).
Defined.
